(** * Food forest planner: the planning grid and its scoring engine

  A shallow embedding of [src/app.js].  JavaScript numbers are IEEE 754
  binary64 values, which is what Rocq's primitive [float] is, so every
  arithmetic expression of the source is transcribed operator by operator.
  JavaScript objects used as dictionaries are association lists in
  insertion order, because [Object.values] enumerates in that order and
  the compatibility analysis depends on it. *)

From Stdlib Require Import ZArith List Bool Ascii String Floats Lia.
From stdpp Require Import base decidable option list strings pretty gmap.

Import ListNotations.
Local Open Scope string_scope.
Local Open Scope list_scope.
Local Open Scope nat_scope.

(** ** JavaScript objects used as dictionaries *)

Module JsObject.
Section Dict.
Context {V : Type}.

(** Own enumerable string-keyed properties, oldest first.  None of the keys
    written by the program is an array index, so enumeration order is
    creation order. *)
Definition t := list (string * V).

(** [o[k]], with [None] for [undefined]. *)
Fixpoint get (o : t) (k : string) : option V :=
  match o with
  | [] => None
  | (k', v) :: rest => if String.eqb k' k then Some v else get rest k
  end.

(** [{...o, [k]: v}]: an existing property keeps its position, a new one
    goes last. *)
Fixpoint put (o : t) (k : string) (v : V) : t :=
  match o with
  | [] => [(k, v)]
  | (k', v') :: rest =>
      if String.eqb k' k then (k', v) :: rest else (k', v') :: put rest k v
  end.

(** [const { [k]: _, ...rest } = o; rest]. *)
Fixpoint omit (o : t) (k : string) : t :=
  match o with
  | [] => []
  | (k', v) :: rest =>
      if String.eqb k' k then omit rest k else (k', v) :: omit rest k
  end.

(** [Object.values(o)]. *)
Definition values (o : t) : list V := List.map snd o.

End Dict.
Arguments t : clear implicits.
End JsObject.

(** ** JavaScript numbers *)

Module JsNumber.
Local Open Scope float_scope.

(** [ToBoolean] on a number: [0], [-0] and [NaN] are falsy. *)
Definition truthy (x : float) : bool := negb (PrimFloat.is_nan x || PrimFloat.is_zero x).

(** [Math.min(a, b)]: [NaN] if either argument is, and [-0] below [+0]. *)
Definition Math_min (a b : float) : float :=
  if PrimFloat.is_nan a || PrimFloat.is_nan b then PrimFloat.nan
  else if b <? a then b
  else if a <? b then a
  else if PrimFloat.get_sign b then b else a.

(** [Math.max(a, b)]: [NaN] if either argument is, and [+0] above [-0]. *)
Definition Math_max (a b : float) : float :=
  if PrimFloat.is_nan a || PrimFloat.is_nan b then PrimFloat.nan
  else if a <? b then b
  else if b <? a then a
  else if PrimFloat.get_sign b then a else b.

(** A non-negative integer below 2^63 as a float (exact below 2^53). *)
Definition of_Z (n : Z) : float := PrimFloat.of_uint63 (Uint63.of_Z n).

(** [Math.floor(x)]: zeros, infinities, [NaN] and integral values are
    returned as they are; otherwise the value [(-1)^s * m * 2^e] with
    [e < 0] is rounded towards minus infinity. *)
Definition Math_floor (x : float) : float :=
  match Prim2SF x with
  | S754_finite s m e =>
      if (0 <=? e)%Z then x
      else
        let q := Z.shiftr (Z.pos m) (- e) in
        if (Z.shiftl q (- e) =? Z.pos m)%Z then x
        else if s then - of_Z (q + 1) else of_Z q
  | _ => x
  end.


End JsNumber.

Import JsNumber.

(** ** Cell keys

    [handleCanvasClick] floors the click position to an integer pair and
    uses the template string [`${x},${y}`] as the property key. *)

Definition cellKey (x y : Z) : string := pretty x +:+ "," +:+ pretty y.

Fixpoint comma_free (s : string) : bool :=
  match s with
  | EmptyString => true
  | String c rest => negb (Ascii.eqb c ",") && comma_free rest
  end.

(** ** Species records and the planning grid *)

(** A record of [plantDatabase], with the fields the engine reads. *)
Record plant := Plant {
  id : nat;
  name : string;
  layer : string;
  companions : list string;
  yieldPerYear : float;
  marketPrice : float;
  maturityAge : float
}.

(** [gridState]: cell key to the plants of that cell, in planting order. *)
Abbreviation GridState := (JsObject.t (list plant)).

(** [gridState[key] || []]; an array is truthy even when empty.  A cell key
    contains a comma, so it never names a member of [Object.prototype]. *)
Definition plantsAt (g : GridState) (key : string) : list plant :=
  default [] (JsObject.get g key).

(** [Object.values(gridState).flat()]. *)
Definition allPlants (g : GridState) : list plant := concat (JsObject.values g).

(** [currentPlants.filter(p => p.layer === l).length]. *)
Definition layerCount (l : string) (currentPlants : list plant) : nat :=
  length (List.filter (fun p => String.eqb (layer p) l) currentPlants).

Definition layerCapacity : JsObject.t nat :=
  [("Canopy", 1); ("Shrub", 4); ("Root", 7)].

(** [layerCapacity] is an object literal, so a property it does not own is
    still found when [Object.prototype] has it. *)
Definition Object_prototype : list string :=
  ["constructor"; "hasOwnProperty"; "isPrototypeOf"; "propertyIsEnumerable";
   "toLocaleString"; "toString"; "valueOf"; "__proto__";
   "__defineGetter__"; "__defineSetter__"; "__lookupGetter__";
   "__lookupSetter__"].

(** [layerCapacity[l] || 7].  [None] stands for an inherited function or
    object, which is truthy and is not a number. *)
Definition capacityFor (l : string) : option nat :=
  match JsObject.get layerCapacity l with
  | Some c => Some (if Nat.eqb c 0 then 7 else c)
  | None => if existsb (String.eqb l) Object_prototype then None else Some 7
  end.

(** [count < capacity]; against a function or object the comparison is made
    with [NaN] and is false. *)
Definition belowCapacity (count : nat) (capacity : option nat) : bool :=
  match capacity with
  | Some c => count <? c
  | None => false
  end.

(** The updater passed to [setGridState] by the plant tool. *)
Definition place (key : string) (selectedPlant : plant) (prevState : GridState)
  : GridState :=
  let currentPlants := plantsAt prevState key in
  let capacity := capacityFor (layer selectedPlant) in
  if belowCapacity (layerCount (layer selectedPlant) currentPlants) capacity
  then JsObject.put prevState key (currentPlants ++ [selectedPlant])
  else prevState.

(** The updater passed to [setGridState] by the eraser tool. *)
Definition erase (key : string) (prevState : GridState) : GridState :=
  JsObject.omit prevState key.

(** ** The planner component *)

Inductive tool := PlantTool | EraserTool | InfoTool.
Inductive mode := Acre | Custom.

Record planner := Planner {
  gridState : GridState;
  selectedPlant : option plant;
  currentTool : tool;
  forestAge : float;
  propertySize : float;
  sizeMode : mode;
  customLength : float;
  customWidth : float;
  gridSize : float
}.

Definition setGridState (f : GridState -> GridState) (st : planner) : planner :=
  {| gridState := f (gridState st); selectedPlant := selectedPlant st;
     currentTool := currentTool st; forestAge := forestAge st;
     propertySize := propertySize st; sizeMode := sizeMode st;
     customLength := customLength st; customWidth := customWidth st;
     gridSize := gridSize st |}.

Definition setGridSize (n : float) (st : planner) : planner :=
  {| gridState := gridState st; selectedPlant := selectedPlant st;
     currentTool := currentTool st; forestAge := forestAge st;
     propertySize := propertySize st; sizeMode := sizeMode st;
     customLength := customLength st; customWidth := customWidth st;
     gridSize := n |}.

Definition setPropertySize (v : float) (st : planner) : planner :=
  {| gridState := gridState st; selectedPlant := selectedPlant st;
     currentTool := currentTool st; forestAge := forestAge st;
     propertySize := v; sizeMode := sizeMode st;
     customLength := customLength st; customWidth := customWidth st;
     gridSize := gridSize st |}.

Definition setSizeMode (m : mode) (st : planner) : planner :=
  {| gridState := gridState st; selectedPlant := selectedPlant st;
     currentTool := currentTool st; forestAge := forestAge st;
     propertySize := propertySize st; sizeMode := m;
     customLength := customLength st; customWidth := customWidth st;
     gridSize := gridSize st |}.

Definition setCustomLength (v : float) (st : planner) : planner :=
  {| gridState := gridState st; selectedPlant := selectedPlant st;
     currentTool := currentTool st; forestAge := forestAge st;
     propertySize := propertySize st; sizeMode := sizeMode st;
     customLength := v; customWidth := customWidth st;
     gridSize := gridSize st |}.

Definition setCustomWidth (v : float) (st : planner) : planner :=
  {| gridState := gridState st; selectedPlant := selectedPlant st;
     currentTool := currentTool st; forestAge := forestAge st;
     propertySize := propertySize st; sizeMode := sizeMode st;
     customLength := customLength st; customWidth := v;
     gridSize := gridSize st |}.

(** The initial values given to [useState]. *)
Definition initialPlanner : planner :=
  {| gridState := []; selectedPlant := None; currentTool := PlantTool;
     forestAge := 1; propertySize := 1; sizeMode := Acre;
     customLength := 0; customWidth := 0; gridSize := 21 |}.

(** The grid part of [handleCanvasClick] at cell [(x, y)]; the info tool
    only opens a dialog. *)
Definition handleCanvasClick (x y : Z) (st : planner) : planner :=
  let key := cellKey x y in
  match currentTool st, selectedPlant st with
  | PlantTool, Some p => setGridState (place key p) st
  | PlantTool, None => st
  | EraserTool, _ => setGridState (erase key) st
  | InfoTool, _ => st
  end.

Definition ACRE_TO_SQ_FT : float := 43560.
Definition CELL_AREA : float := (9 * 9)%float.

Definition newGridSize (st : planner) : float :=
  match sizeMode st with
  | Acre =>
      let squareFeet := (propertySize st * ACRE_TO_SQ_FT)%float in
      Math_floor (PrimFloat.sqrt (squareFeet / CELL_AREA))
  | Custom =>
      Math_floor (Math_min (customLength st) (customWidth st) / 9)%float
  end.

Definition updateGridSize (st : planner) : planner :=
  setGridState (fun _ => []) (setGridSize (Math_max (newGridSize st) 1) st).

(** ** Compatibility analysis *)

Record analysis := Analysis {
  compatibilityReport : list string;
  incompatiblePairs : list string
}.

(** [xs.includes(s)] on an array of strings. *)
Definition includes (xs : list string) (s : string) : bool :=
  existsb (String.eqb s) xs.

Definition goodCompanions (plant1 plant2 : plant) : string :=
  name plant1 +:+ " and " +:+ name plant2 +:+ " are good companions.".

Definition notIdeal (plant1 plant2 : plant) : string :=
  name plant1 +:+ " and " +:+ name plant2 +:+ " may not be ideal companions.".

(** The body of the inner loop. *)
Definition comparePair (plant1 plant2 : plant) (a : analysis) : analysis :=
  if includes (companions plant1) (name plant2) then
    {| compatibilityReport := compatibilityReport a ++ [goodCompanions plant1 plant2];
       incompatiblePairs := incompatiblePairs a |}
  else if negb (includes (companions plant1) (name plant2))
          && negb (includes (companions plant2) (name plant1)) then
    {| compatibilityReport := compatibilityReport a;
       incompatiblePairs := incompatiblePairs a ++ [notIdeal plant1 plant2] |}
  else a.

(** [for (j = i + 1; j < plantList.length; j++)] with [plant1 = plantList[i]]. *)
Fixpoint innerLoop (plant1 : plant) (later : list plant) (a : analysis) : analysis :=
  match later with
  | [] => a
  | plant2 :: rest => innerLoop plant1 rest (comparePair plant1 plant2 a)
  end.

(** [for (i = 0; i < plantList.length; i++)]. *)
Fixpoint outerLoop (plantList : list plant) (a : analysis) : analysis :=
  match plantList with
  | [] => a
  | plant1 :: later => outerLoop later (innerLoop plant1 later a)
  end.

Definition analyzePlantCompatibility (g : GridState) : analysis :=
  outerLoop (allPlants g) {| compatibilityReport := []; incompatiblePairs := [] |}.

(** ** Companion suggestions *)

(** What an element of [selectedPlants] can be: the caller passes names,
    the callee reads [.companions] from each element. *)
Inductive element :=
  | Name (s : string)
  | Species (p : plant).

(** [plant.companions]; a string has no such property ([undefined]). *)
Definition companionsOf (e : element) : option (list string) :=
  match e with
  | Name _ => None
  | Species p => Some (companions p)
  end.

(** [selectedPlants.includes(companion)]: strict equality with a string. *)
Definition includesName (selectedPlants : list element) (companion : string) : bool :=
  existsb (fun e => match e with
                    | Name s => String.eqb s companion
                    | Species _ => false
                    end) selectedPlants.

(** [suggestions.add(companion)] on a [Set], kept in insertion order. *)
Definition setAdd (suggestions : list string) (companion : string) : list string :=
  if includes suggestions companion then suggestions else suggestions ++ [companion].

(** The callback of the inner [forEach]. *)
Definition considerCompanion (selectedPlants : list element)
    (suggestions : list string) (companion : string) : list string :=
  if negb (includesName selectedPlants companion)
  then setAdd suggestions companion
  else suggestions.

(** The callback of the outer [forEach]; [undefined] is falsy, an array is
    truthy. *)
Definition considerPlant (selectedPlants : list element)
    (suggestions : list string) (plant : element) : list string :=
  match companionsOf plant with
  | Some cs => fold_left (considerCompanion selectedPlants) cs suggestions
  | None => suggestions
  end.

Definition getCompanionSuggestions (selectedPlants : list element) : list string :=
  fold_left (considerPlant selectedPlants) selectedPlants [].

(** The value [updateCompanionSuggestions] stores in [companionSuggestions]. *)
Definition updateCompanionSuggestions (g : GridState) : list string :=
  let selectedPlants := List.map (fun p => Name (name p)) (allPlants g) in
  getCompanionSuggestions selectedPlants.

(** ** Scores *)

(** [new Set(xs).size]. *)
Definition distinct (xs : list string) : nat := size (list_to_set xs : gset string).

(** [newBiodiversityScore] of [calculateScores]. *)
Definition biodiversityScore (plants : list plant) : nat :=
  let uniqueSpecies := distinct (List.map name plants) in
  let layersUsed := distinct (List.map layer plants) in
  uniqueSpecies * 10 + (if Nat.eqb layersUsed 7 then 50 else 0).

(** The seven layers the planner offers (the keys of [layerConfig] and the
    options of the layer selector). *)
Definition layers : list string :=
  ["Canopy"; "Sub-canopy"; "Shrub"; "Herbaceous"; "Ground Cover"; "Vine"; "Root"].

(** ** Economic analysis *)

Section Catalog.
Variable plantDatabase : list plant.

(** [plantDatabase.find(p => p.id === plant.id)]. *)
Definition findInDatabase (p : plant) : option plant :=
  List.find (fun d => Nat.eqb (id d) (id p)) plantDatabase.

(** [newIncome[k] || 0]. *)
Definition orZero (v : option float) : float :=
  match v with
  | Some x => if truthy x then x else 0%float
  | None => 0%float
  end.

Definition plantIncome (forestAge : float) (dbPlant : plant) : float :=
  let maturityFactor := Math_min 1 (forestAge / maturityAge dbPlant)%float in
  let annualYield := (yieldPerYear dbPlant * maturityFactor)%float in
  (annualYield * marketPrice dbPlant)%float.

(** A value of the income object: a number, or the string that [+]
    produces once one operand is a string, a function or an object. *)
Inductive amount :=
  | Number (x : float)
  | Text.

(** [(newIncome[k] || 0) + plantIncome].  [entry] is the own property,
    [inherited] tells whether [k] names a member of [Object.prototype]:
    such a member is a function or an object, which is truthy, and adding a
    number to it, or to a string, gives a string. *)
Definition credit (entry : option amount) (inherited : bool) (plantIncome : float)
  : amount :=
  match entry with
  | Some (Number x) => Number (orZero (Some x) + plantIncome)%float
  | Some Text => Text
  | None => if inherited then Text else Number (orZero None + plantIncome)%float
  end.

(** The callback of the [forEach] in [calculateIncome].  An assignment to
    [__proto__] goes to the setter of [Object.prototype], which ignores
    what is not an object: no entry is stored under that name. *)
Definition addIncome (forestAge : float) (newIncome : JsObject.t amount)
    (plant : plant) : JsObject.t amount :=
  match findInDatabase plant with
  | Some dbPlant =>
      let value :=
        credit (JsObject.get newIncome (name dbPlant))
          (existsb (String.eqb (name dbPlant)) Object_prototype)
          (plantIncome forestAge dbPlant) in
      if String.eqb (name dbPlant) "__proto__" then newIncome
      else JsObject.put newIncome (name dbPlant) value
  | None => newIncome
  end.

(** The object [calculateIncome] stores in [income]. *)
Definition calculateIncome (g : GridState) (forestAge : float) : JsObject.t amount :=
  fold_left (addIncome forestAge) (allPlants g) [].

End Catalog.



(** ** Vocabulary of the properties *)

(** The density cap of a layer. *)
Definition cap (l : string) : nat :=
  if String.eqb l "Canopy" then 1
  else if String.eqb l "Shrub" then 4
  else if String.eqb l "Root" then 7
  else 7.

(** The pairs the analysis examines, in the order of the two loops: each
    plant with every plant after it in the list. *)
Fixpoint examinedPairs (plantList : list plant) : list (plant * plant) :=
  match plantList with
  | [] => []
  | plant1 :: later => List.map (pair plant1) later ++ examinedPairs later
  end.

(** The first plant of the pair lists the second as a companion. *)
Definition lists (pq : plant * plant) : bool :=
  includes (companions (fst pq)) (name (snd pq)).

(** Neither plant of the pair lists the other. *)
Definition neitherLists (pq : plant * plant) : bool :=
  negb (lists pq) && negb (lists (snd pq, fst pq)).

(** The grid after a sequence of placements on the empty grid. *)
Definition placeAll (ops : list (Z * Z * plant)) : GridState :=
  fold_left (fun g '(x, y, p) => place (cellKey x y) p g) ops [].

(** Every layer of every cell is within its cap. *)
Definition capped (g : GridState) : Prop :=
  forall key l, layerCount l (plantsAt g key) <= cap l.

(** No cell is present with an empty list. *)
Definition noEmptyCell (g : GridState) : Prop :=
  Forall (fun cell => cell <> []) (JsObject.values g).

(** The number of occupied cells. *)
Definition occupiedCells (g : GridState) : nat :=
  length (List.filter (fun cell => negb (Nat.eqb (length cell) 0)) (JsObject.values g)).





(** The amounts [calculateIncome] adds under the key [n]. *)
Definition creditedTo (plantDatabase : list plant) (placed : list plant)
    (forestAge : float) (n : string) : list float :=
  flat_map
    (fun p =>
       match findInDatabase plantDatabase p with
       | Some dbPlant =>
           if String.eqb (name dbPlant) n then [plantIncome forestAge dbPlant] else []
       | None => []
       end)
    placed.

(** The entry after each amount has gone through [(entry || 0) + amount]. *)
Definition runningTotal (entry : option float) (amounts : list float) : option float :=
  fold_left (fun entry x => Some (orZero entry + x)%float) amounts entry.



(** ** Sample records *)

Definition mango : plant :=
  {| id := 1; name := "Mango"; layer := "Canopy"; companions := ["Lemongrass"];
     yieldPerYear := 50; marketPrice := 2; maturityAge := 5 |}.

Definition lemongrass : plant :=
  {| id := 2; name := "Lemongrass"; layer := "Herbaceous"; companions := ["Mango"];
     yieldPerYear := 10; marketPrice := 1; maturityAge := 1 |}.

Definition banana : plant :=
  {| id := 3; name := "Banana"; layer := "Sub-canopy"; companions := ["Comfrey"];
     yieldPerYear := 30; marketPrice := 1; maturityAge := 2 |}.

Definition comfrey : plant :=
  {| id := 4; name := "Comfrey"; layer := "Herbaceous"; companions := [];
     yieldPerYear := 5; marketPrice := 1; maturityAge := 1 |}.

Definition avocado : plant :=
  {| id := 5; name := "Avocado"; layer := "Canopy"; companions := ["Comfrey"];
     yieldPerYear := 40; marketPrice := 3; maturityAge := 4 |}.


Definition defaultAnnualCosts : JsObject.t float :=
  [("maintenance", 1000); ("water", 500); ("additionalPlants", 200)]%float.



(** A grid with two mangos, a lemongrass and a banana. *)
Definition sampleGrid : GridState :=
  placeAll [(0, 0, mango); (0, 0, lemongrass); (1, 0, mango); (2, 0, banana)]%Z.

(** A catalog without the banana. *)
Definition smallDatabase : list plant := [mango; lemongrass].

(** A record with the given id, name and layer. *)
Definition specimen (i : nat) (n l : string) : plant :=
  {| id := i; name := n; layer := l; companions := [];
     yieldPerYear := 1; marketPrice := 1; maturityAge := 1 |}.

(** One species in each of the seven layers. *)
Definition fullStack : list plant :=
  [specimen 11 "Oak" "Canopy"; specimen 12 "Hazel" "Sub-canopy";
   specimen 13 "Currant" "Shrub"; specimen 14 "Mint" "Herbaceous";
   specimen 15 "Clover" "Ground Cover"; specimen 16 "Grape" "Vine";
   specimen 17 "Carrot" "Root"].

(** A species of a layer outside the seven. *)
Definition kapok : plant := specimen 18 "Kapok" "Emergent".

(** ** Sequences of grid updates *)

(** The three updates the component ever passes to [setGridState]: the
    plant tool's, the eraser's, and the reset of [updateGridSize]. *)
Inductive action :=
  | PlaceAt (x y : Z) (p : plant)
  | EraseAt (x y : Z)
  | ClearGrid.

Definition act (g : GridState) (a : action) : GridState :=
  match a with
  | PlaceAt x y p => place (cellKey x y) p g
  | EraseAt x y => erase (cellKey x y) g
  | ClearGrid => []
  end.

(** The grid after a sequence of updates of the initial, empty grid. *)
Definition runActions (acts : list action) : GridState := fold_left act acts [].

(** No key occurs twice. *)
Definition uniqueKeys (g : GridState) : Prop := NoDup (List.map fst g).

(** Every key is the key of a cell. *)
Definition cellKeys (g : GridState) : Prop :=
  Forall (fun key => exists x y, key = cellKey x y) (List.map fst g).

(** The info tool: [plantsAtLocation[plantsAtLocation.length - 1]] is handed
    to [setModalPlant] when the cell holds a plant; [None] when the dialog
    is not opened. *)
Definition inspected (g : GridState) (key : string) : option plant :=
  let plantsAtLocation := plantsAt g key in
  if 0 <? length plantsAtLocation
  then nth_error plantsAtLocation (length plantsAtLocation - 1)
  else None.

(** ** Vertical structure score *)

(** The callback of the [reduce] that counts the plants of each layer:
    [count[plant.layer] = (count[plant.layer] || 0) + 1].  Layer names are
    taken not to be names of [Object.prototype] members. *)
Definition countLayer (count : JsObject.t nat) (plant : plant) : JsObject.t nat :=
  let current := match JsObject.get count (layer plant) with
                 | Some c => if Nat.eqb c 0 then 0 else c
                 | None => 0
                 end in
  JsObject.put count (layer plant) (current + 1).

Definition layerCounts (plants : list plant) : JsObject.t nat :=
  fold_left countLayer plants [].

(** [newVerticalScore] of [calculateScores]. *)
Definition verticalScore (plants : list plant) : nat :=
  fold_left (fun score count => score + Nat.min count 5 * 10)
    (JsObject.values (layerCounts plants)) 0.

(** What one layer holding [count] plants adds to the score. *)
Definition layerPoints (count : nat) : nat := Nat.min count 5 * 10.

(** The layers in use, each once. *)
Definition layersUsed (plants : list plant) : list string :=
  remove_dups (List.map layer plants).

(** ** Export of the coordinates *)

(** [s.split(',')]. *)
Fixpoint splitComma (s : string) : list string :=
  match s with
  | EmptyString => [EmptyString]
  | String c rest =>
      if Ascii.eqb c ","
      then EmptyString :: splitComma rest
      else match splitComma rest with
           | part :: parts => String c part :: parts
           | [] => [String c EmptyString]
           end
  end.

(** An element taken from an array by destructuring, as a template string
    prints it: a missing one is [undefined]. *)
Definition part (parts : list string) (i : nat) : string := nth i parts "undefined".

(** The line feed. *)
Definition newline : string := String (Ascii.ascii_of_nat 10) EmptyString.

(** The row [downloadCSV] appends for one plant of the cell stored under
    [key]. *)
Definition csvRow (key : string) (plant : plant) : string :=
  let parts := splitComma key in
  let x := part parts 0 in
  let y := part parts 1 in
  x +:+ "," +:+ y +:+ "," +:+ name plant +:+ "," +:+ layer plant +:+ newline.

Definition csvHeader : string :=
  "data:text/csv;charset=utf-8," +:+ ("X,Y,Plant Name,Layer" +:+ newline).

(** [csvContent] of [downloadCSV], before it is passed to [encodeURI]. *)
Definition csvContent (g : GridState) : string :=
  fold_left
    (fun csvContent entry =>
       fold_left (fun csvContent plant => csvContent +:+ csvRow (fst entry) plant)
         (snd entry) csvContent)
    g csvHeader.

(** The strings of a list, one after the other. *)
Definition joinAll (rows : list string) : string := fold_right String.append "" rows.

(** The plants of the grid with the coordinates of their cell written as in
    the key. *)
Definition placements (g : GridState) : list (string * plant) :=
  flat_map (fun entry => List.map (pair (fst entry)) (snd entry)) g.

(** ** Edits of the cost tables *)

(** The updater of [handleSetupCostChange] and of [handleAnnualCostChange],
    [value] being the number read from the field. *)
Definition handleCostChange (key : string) (value : float) (prev : JsObject.t float)
  : JsObject.t float :=
  JsObject.put prev key value.








(** * Properties *)

(** ** Dictionaries *)

Section DictFacts.
Context {V : Type}.
Implicit Types (o : JsObject.t V) (k : string) (v : V).
Import JsObject.

Lemma get_put_eq o k v : get (put o k v) k = Some v.
Proof.
  induction o as [|[k' v'] rest IH]; simpl.
  - now rewrite String.eqb_refl.
  - destruct (String.eqb k' k) eqn:E; simpl; rewrite E; auto.
Qed.

Lemma get_put_ne o k k' v : k <> k' -> get (put o k v) k' = get o k'.
Proof.
  intros Hne. induction o as [|[k0 v0] rest IH]; simpl.
  - destruct (String.eqb_spec k k'); congruence.
  - destruct (String.eqb_spec k0 k) as [->|Hk]; simpl.
    + destruct (String.eqb_spec k k'); congruence.
    + now rewrite IH.
Qed.

Lemma get_omit_eq o k : get (omit o k) k = None.
Proof.
  induction o as [|[k' v'] rest IH]; simpl; auto.
  destruct (String.eqb k' k) eqn:E; simpl; rewrite ?E; auto.
Qed.

Lemma get_omit_ne o k k' : k <> k' -> get (omit o k) k' = get o k'.
Proof.
  intros Hne. induction o as [|[k0 v0] rest IH]; simpl; auto.
  destruct (String.eqb_spec k0 k) as [->|Hk]; simpl.
  - destruct (String.eqb_spec k k'); congruence.
  - now rewrite IH.
Qed.

Lemma omit_absent o k : get o k = None -> omit o k = o.
Proof.
  induction o as [|[k' v'] rest IH]; simpl; auto.
  destruct (String.eqb k' k); [discriminate|].
  intros H. now rewrite IH.
Qed.

Lemma omit_idem o k : omit (omit o k) k = omit o k.
Proof. apply omit_absent, get_omit_eq. Qed.

Lemma get_Some_In o k v : get o k = Some v -> In v (values o).
Proof.
  induction o as [|[k' v'] rest IH]; simpl; [discriminate|].
  destruct (String.eqb k' k).
  - intros [= ->]. now left.
  - intros H. right. now apply IH.
Qed.
End DictFacts.

(** ** Cell keys are injective *)

Lemma pretty_N_char_comma_free d : Ascii.eqb (pretty_N_char d) "," = false.
Proof. unfold pretty_N_char. repeat case_match; reflexivity. Qed.

Lemma pretty_N_go_comma_free x s :
  comma_free s = true -> comma_free (pretty_N_go x s) = true.
Proof.
  revert s. induction (N.lt_wf_0 x) as [x _ IH]; intros s Hs.
  destruct (decide (x = 0)%N) as [->|Hx].
  - now rewrite pretty_N_go_0.
  - rewrite pretty_N_go_step by lia. apply IH.
    + apply N.div_lt; lia.
    + simpl. now rewrite pretty_N_char_comma_free.
Qed.

Lemma pretty_N_comma_free (x : N) : comma_free (pretty x) = true.
Proof.
  unfold pretty, pretty_N. case_decide; [reflexivity|].
  now apply pretty_N_go_comma_free.
Qed.

Lemma pretty_Z_comma_free (x : Z) : comma_free (pretty x) = true.
Proof.
  destruct x as [|p|p]; unfold pretty, pretty_Z; simpl.
  - reflexivity.
  - apply pretty_N_comma_free.
  - apply pretty_N_comma_free.
Qed.

Lemma comma_split_inj a a' b b' :
  comma_free a = true -> comma_free a' = true ->
  a +:+ "," +:+ b = a' +:+ "," +:+ b' -> a = a' /\ b = b'.
Proof.
  revert a'. induction a as [|c a IH]; intros [|c' a'] Ha Ha' E; simpl in *.
  - now inversion E.
  - inversion E; subst. now rewrite Ascii.eqb_refl in Ha'.
  - inversion E; subst. now rewrite Ascii.eqb_refl in Ha.
  - apply andb_prop in Ha as [_ Ha]. apply andb_prop in Ha' as [_ Ha'].
    inversion E; subst. destruct (IH a' Ha Ha' H1) as [-> ->]. auto.
Qed.

Lemma cellKey_inj x y x' y' : cellKey x y = cellKey x' y' -> x = x' /\ y = y'.
Proof.
  unfold cellKey. intros E.
  apply comma_split_inj in E as [Ex Ey]; auto using pretty_Z_comma_free.
  split; now apply (inj pretty).
Qed.

(** ** Placement and removal *)

Lemma layerCount_snoc l cell p :
  layerCount l (cell ++ [p])
  = layerCount l cell + (if String.eqb (layer p) l then 1 else 0).
Proof.
  unfold layerCount. rewrite List.filter_app, length_app. simpl.
  now destruct (String.eqb (layer p) l).
Qed.

Lemma belowCapacity_cap n l :
  belowCapacity n (capacityFor l) = true -> n < cap l.
Proof.
  unfold capacityFor, cap, layerCapacity. cbn [JsObject.get].
  rewrite (String.eqb_sym "Canopy"), (String.eqb_sym "Shrub"), (String.eqb_sym "Root").
  destruct (String.eqb l "Canopy"); [apply Nat.ltb_lt|].
  destruct (String.eqb l "Shrub"); [apply Nat.ltb_lt|].
  destruct (String.eqb l "Root"); [apply Nat.ltb_lt|].
  destruct (existsb _ _); [discriminate | apply Nat.ltb_lt].
Qed.

(** For a layer name that [Object.prototype] does not define, the capacity
    read by the source is [cap]. *)
Lemma capacityFor_cap l :
  existsb (String.eqb l) Object_prototype = false -> capacityFor l = Some (cap l).
Proof.
  intros Hown. unfold capacityFor, cap, layerCapacity. cbn [JsObject.get].
  rewrite (String.eqb_sym "Canopy"), (String.eqb_sym "Shrub"), (String.eqb_sym "Root").
  destruct (String.eqb l "Canopy"); [reflexivity|].
  destruct (String.eqb l "Shrub"); [reflexivity|].
  destruct (String.eqb l "Root"); [reflexivity|].
  now rewrite Hown.
Qed.

Example capacityFor_layers :
  List.map capacityFor layers
  = [Some 1; Some 7; Some 4; Some 7; Some 7; Some 7; Some 7].
Proof. reflexivity. Qed.

Lemma plantsAt_place_eq key p g :
  belowCapacity (layerCount (layer p) (plantsAt g key)) (capacityFor (layer p)) = true ->
  plantsAt (place key p g) key = plantsAt g key ++ [p].
Proof.
  intros H. unfold place. rewrite H. unfold plantsAt at 1.
  now rewrite get_put_eq.
Qed.

Lemma plantsAt_place_ne key key' p g :
  key <> key' -> plantsAt (place key p g) key' = plantsAt g key'.
Proof.
  intros Hne. unfold place.
  destruct (belowCapacity _ _); [|reflexivity].
  unfold plantsAt. now rewrite get_put_ne.
Qed.

Lemma plantsAt_erase_eq key g : plantsAt (erase key g) key = [].
Proof. unfold plantsAt, erase. now rewrite get_omit_eq. Qed.

Lemma plantsAt_erase_ne key key' g :
  key <> key' -> plantsAt (erase key g) key' = plantsAt g key'.
Proof. intros Hne. unfold plantsAt, erase. now rewrite get_omit_ne. Qed.

Lemma capped_empty : capped [].
Proof. intros key l. apply Nat.le_0_l. Qed.

Lemma capped_place key p g : capped g -> capped (place key p g).
Proof.
  intros Hg key' l.
  destruct (String.eqb_spec key key') as [<-|Hne].
  - destruct (belowCapacity (layerCount (layer p) (plantsAt g key))
                (capacityFor (layer p))) eqn:Hb.
    + rewrite plantsAt_place_eq by exact Hb. rewrite layerCount_snoc.
      destruct (String.eqb_spec (layer p) l) as [<-|Hl].
      * apply belowCapacity_cap in Hb. lia.
      * rewrite Nat.add_0_r. apply Hg.
    + unfold place. rewrite Hb. apply Hg.
  - rewrite plantsAt_place_ne by exact Hne. apply Hg.
Qed.

Lemma capped_erase key g : capped g -> capped (erase key g).
Proof.
  intros Hg key' l.
  destruct (String.eqb_spec key key') as [<-|Hne].
  - rewrite plantsAt_erase_eq. apply Nat.le_0_l.
  - rewrite plantsAt_erase_ne by exact Hne. apply Hg.
Qed.

Lemma capped_fold ops g :
  capped g ->
  capped (fold_left (fun g '(x, y, p) => place (cellKey x y) p g) ops g).
Proof.
  revert g. induction ops as [|[[x y] p] ops IH]; intros g Hg; simpl.
  - exact Hg.
  - apply IH, capped_place, Hg.
Qed.

Lemma place_over_cap key p g :
  cap (layer p) <= layerCount (layer p) (plantsAt g key) -> place key p g = g.
Proof.
  intros Hfull. unfold place.
  destruct (belowCapacity _ _) eqn:Hb; [|reflexivity].
  apply belowCapacity_cap in Hb. lia.
Qed.

Lemma handleCanvasClick_plant x y p st :
  currentTool st = PlantTool -> selectedPlant st = Some p ->
  gridState (handleCanvasClick x y st) = place (cellKey x y) p (gridState st).
Proof. intros Ht Hp. unfold handleCanvasClick. now rewrite Ht, Hp. Qed.

Lemma handleCanvasClick_eraser x y st :
  currentTool st = EraserTool ->
  gridState (handleCanvasClick x y st) = erase (cellKey x y) (gridState st).
Proof. intros Ht. unfold handleCanvasClick. now rewrite Ht. Qed.

(** C3. After any sequence of placements on the empty grid, every cell holds
    at most [cap l] plants of each layer [l] (1 for Canopy, 4 for Shrub, 7
    for Root, 7 for any other layer), and a placement into a layer that is
    already at its cap returns the grid as it was. *)
Theorem density_cap_invariant (ops : list (Z * Z * plant)) :
  (forall x y l, layerCount l (plantsAt (placeAll ops) (cellKey x y)) <= cap l)
  /\ (forall g x y p,
        cap (layer p) <= layerCount (layer p) (plantsAt g (cellKey x y)) ->
        place (cellKey x y) p g = g).
Proof.
  split.
  - intros x y l. apply (capped_fold ops [] capped_empty).
  - intros g x y p. apply place_over_cap.
Qed.

Lemma density_cap_invariant_witness :
  cap (layer avocado)
    <= layerCount (layer avocado) (plantsAt (placeAll [(0, 0, mango)%Z]) (cellKey 0 0))
  /\ place (cellKey 0 0) avocado (placeAll [(0, 0, mango)%Z]) = placeAll [(0, 0, mango)%Z].
Proof.
  split.
  - vm_compute. lia.
  - apply (proj2 (density_cap_invariant [])). vm_compute. lia.
Defined.

(** C5. Updating the grid size leaves a grid with no occupied cell,
    whatever the grid held and whatever the new size is. *)
Theorem resize_clears_grid (st : planner) :
  gridState (updateGridSize st) = []
  /\ occupiedCells (gridState (updateGridSize st)) = 0
  /\ forall key, plantsAt (gridState (updateGridSize st)) key = [].
Proof. repeat split. Qed.

Lemma empty_cell_absent g key :
  noEmptyCell g -> plantsAt g key = [] -> JsObject.get g key = None.
Proof.
  unfold noEmptyCell, plantsAt. intros Hg Hnil.
  destruct (JsObject.get g key) as [cell|] eqn:E; [|reflexivity].
  simpl in Hnil. subst cell.
  apply get_Some_In in E. rewrite Forall_forall in Hg.
  exfalso. refine (Hg [] _ eq_refl). apply list_elem_of_In, E.
Qed.

(** C6. Removing at a coordinate deletes the whole sequence of that cell, on
    an empty coordinate it leaves the grid as it was, and removing twice is
    the same as removing once. *)
Theorem erase_whole_cell_idempotent (g : GridState) (x y : Z) :
  JsObject.get (erase (cellKey x y) g) (cellKey x y) = None
  /\ plantsAt (erase (cellKey x y) g) (cellKey x y) = []
  /\ (JsObject.get g (cellKey x y) = None -> erase (cellKey x y) g = g)
  /\ (noEmptyCell g -> plantsAt g (cellKey x y) = [] -> erase (cellKey x y) g = g)
  /\ erase (cellKey x y) (erase (cellKey x y) g) = erase (cellKey x y) g.
Proof.
  unfold erase. repeat split.
  - apply get_omit_eq.
  - apply plantsAt_erase_eq.
  - apply omit_absent.
  - intros Hg Hnil. apply omit_absent, empty_cell_absent; assumption.
  - apply omit_idem.
Qed.

Lemma erase_whole_cell_idempotent_witness :
  JsObject.get (placeAll [(0, 0, mango)%Z]) (cellKey 1 2) = None
  /\ erase (cellKey 1 2) (placeAll [(0, 0, mango)%Z]) = placeAll [(0, 0, mango)%Z].
Proof.
  split.
  - reflexivity.
  - apply (proj1 (proj2 (proj2 (erase_whole_cell_idempotent
             (placeAll [(0, 0, mango)%Z]) 1 2)))).
    reflexivity.
Defined.

(** C10. Placing at a coordinate (accepted or not) and removing at a
    coordinate leave the entry of every other coordinate as it was. *)
Theorem other_cells_untouched (g : GridState) (x y x' y' : Z) (p : plant) :
  (x, y) <> (x', y') ->
  JsObject.get (place (cellKey x y) p g) (cellKey x' y') = JsObject.get g (cellKey x' y')
  /\ plantsAt (place (cellKey x y) p g) (cellKey x' y') = plantsAt g (cellKey x' y')
  /\ JsObject.get (erase (cellKey x y) g) (cellKey x' y') = JsObject.get g (cellKey x' y')
  /\ plantsAt (erase (cellKey x y) g) (cellKey x' y') = plantsAt g (cellKey x' y').
Proof.
  intros Hne.
  assert (Hkey : cellKey x y <> cellKey x' y').
  { intros E. apply cellKey_inj in E as [-> ->]. now apply Hne. }
  repeat split.
  - unfold place. destruct (belowCapacity _ _); [|reflexivity].
    now apply get_put_ne.
  - now apply plantsAt_place_ne.
  - now apply get_omit_ne.
  - now apply plantsAt_erase_ne.
Qed.

Lemma other_cells_untouched_witness :
  ((0, 0) <> (1, 0))%Z
  /\ plantsAt (place (cellKey 0 0) avocado (placeAll [(0, 0, mango); (1, 0, banana)]%Z))
       (cellKey 1 0) = [banana]
  /\ plantsAt (erase (cellKey 0 0) (placeAll [(0, 0, mango); (1, 0, banana)]%Z))
       (cellKey 1 0) = [banana].
Proof.
  assert (H : ((0, 0) <> (1, 0))%Z) by discriminate.
  split; [exact H|].
  destruct (other_cells_untouched (placeAll [(0, 0, mango); (1, 0, banana)]%Z)
              0 0 1 0 avocado H) as (_ & Hp & _ & He).
  split.
  - rewrite Hp. reflexivity.
  - rewrite He. reflexivity.
Defined.

(** ** Compatibility analysis *)

Lemma comparePair_listed plant1 plant2 a :
  includes (companions plant1) (name plant2) = true ->
  comparePair plant1 plant2 a
  = {| compatibilityReport := compatibilityReport a ++ [goodCompanions plant1 plant2];
       incompatiblePairs := incompatiblePairs a |}.
Proof. intros H. unfold comparePair. now rewrite H. Qed.

Lemma comparePair_neither plant1 plant2 a :
  includes (companions plant1) (name plant2) = false ->
  includes (companions plant2) (name plant1) = false ->
  comparePair plant1 plant2 a
  = {| compatibilityReport := compatibilityReport a;
       incompatiblePairs := incompatiblePairs a ++ [notIdeal plant1 plant2] |}.
Proof. intros H1 H2. unfold comparePair. now rewrite H1, H2. Qed.

(** A pair in which only the later plant lists the earlier one is put in
    neither list. *)
Lemma comparePair_listed_by_later plant1 plant2 a :
  includes (companions plant1) (name plant2) = false ->
  includes (companions plant2) (name plant1) = true ->
  comparePair plant1 plant2 a = a.
Proof. intros H1 H2. unfold comparePair. now rewrite H1, H2. Qed.

(** No pair is put in both lists. *)
Lemma comparePair_at_most_one plant1 plant2 a :
  length (compatibilityReport (comparePair plant1 plant2 a))
  + length (incompatiblePairs (comparePair plant1 plant2 a))
  <= S (length (compatibilityReport a) + length (incompatiblePairs a)).
Proof.
  unfold comparePair.
  destruct (includes (companions plant1) (name plant2)); simpl.
  - rewrite length_app; simpl; lia.
  - destruct (includes (companions plant2) (name plant1)); simpl.
    + lia.
    + rewrite length_app; simpl; lia.
Qed.

Lemma innerLoop_lists (plant1 : plant) (later : list plant) (a : analysis) :
  compatibilityReport (innerLoop plant1 later a)
  = compatibilityReport a
    ++ List.map (fun pq => goodCompanions (fst pq) (snd pq))
         (List.filter lists (List.map (pair plant1) later))
  /\ incompatiblePairs (innerLoop plant1 later a)
     = incompatiblePairs a
       ++ List.map (fun pq => notIdeal (fst pq) (snd pq))
            (List.filter neitherLists (List.map (pair plant1) later)).
Proof.
  revert a. induction later as [|plant2 later IH]; intros a; simpl.
  - now rewrite !app_nil_r.
  - destruct (IH (comparePair plant1 plant2 a)) as [-> ->].
    unfold comparePair, neitherLists, lists. simpl.
    destruct (includes (companions plant1) (name plant2)); simpl.
    + now rewrite <- app_assoc.
    + destruct (includes (companions plant2) (name plant1)); simpl.
      * split; reflexivity.
      * now rewrite <- app_assoc.
Qed.

(** What the two lists of the analysis hold: one message per examined pair
    whose first plant lists the second, and one per pair in which neither
    lists the other. *)
Lemma outerLoop_lists (plantList : list plant) (a : analysis) :
  compatibilityReport (outerLoop plantList a)
  = compatibilityReport a
    ++ List.map (fun pq => goodCompanions (fst pq) (snd pq))
         (List.filter lists (examinedPairs plantList))
  /\ incompatiblePairs (outerLoop plantList a)
     = incompatiblePairs a
       ++ List.map (fun pq => notIdeal (fst pq) (snd pq))
            (List.filter neitherLists (examinedPairs plantList)).
Proof.
  revert a. induction plantList as [|plant1 later IH]; intros a; simpl.
  - now rewrite !app_nil_r.
  - destruct (IH (innerLoop plant1 later a)) as [-> ->].
    destruct (innerLoop_lists plant1 later a) as [-> ->].
    rewrite !List.filter_app, !List.map_app, <- !app_assoc. split; reflexivity.
Qed.

Lemma analyzePlantCompatibility_lists (g : GridState) :
  compatibilityReport (analyzePlantCompatibility g)
  = List.map (fun pq => goodCompanions (fst pq) (snd pq))
      (List.filter lists (examinedPairs (allPlants g)))
  /\ incompatiblePairs (analyzePlantCompatibility g)
     = List.map (fun pq => notIdeal (fst pq) (snd pq))
         (List.filter neitherLists (examinedPairs (allPlants g))).
Proof. unfold analyzePlantCompatibility. apply outerLoop_lists. Qed.

(** C1. Banana lists Comfrey as a companion and Comfrey lists nothing.
    With Comfrey planted first the pair is reported in neither list; with
    Banana planted first it is reported as good companions. *)
Theorem listed_by_later_plant_unclassified :
  includes (companions banana) (name comfrey) = true
  /\ analyzePlantCompatibility (placeAll [(0, 0, comfrey); (1, 0, banana)]%Z)
     = {| compatibilityReport := []; incompatiblePairs := [] |}
  /\ analyzePlantCompatibility (placeAll [(1, 0, banana); (0, 0, comfrey)]%Z)
     = {| compatibilityReport := ["Banana and Comfrey are good companions."];
          incompatiblePairs := [] |}.
Proof. repeat split. Qed.

(** ** Companion suggestions *)

Lemma suggestions_of_names (selected : list element) (names : list string)
    (suggestions : list string) :
  fold_left (considerPlant selected) (List.map Name names) suggestions = suggestions.
Proof. induction names as [|n names IH]; simpl; auto. Qed.

(** Whatever is planted, the stored suggestion list is empty: the elements
    handed to [getCompanionSuggestions] are names, and a name has no
    [companions]. *)
Lemma updateCompanionSuggestions_nil (g : GridState) :
  updateCompanionSuggestions g = [].
Proof.
  unfold updateCompanionSuggestions, getCompanionSuggestions.
  rewrite <- (List.map_map name Name). apply suggestions_of_names.
Qed.

(** Handed the records themselves, the function proposes species that are
    already planted. *)
Remark getCompanionSuggestions_of_records :
  getCompanionSuggestions [Species mango; Species lemongrass] = ["Lemongrass"; "Mango"].
Proof. reflexivity. Qed.

(** C2. Mango is planted and lists Lemongrass, which is not planted, and
    the suggestion list is empty. *)
Theorem unplanted_companion_not_suggested :
  In "Lemongrass" (companions mango)
  /\ ~ In "Lemongrass" (List.map name (allPlants (placeAll [(0, 0, mango)%Z])))
  /\ updateCompanionSuggestions (placeAll [(0, 0, mango)%Z]) = [].
Proof.
  split; [now left|]. split.
  - simpl. intros [H|[]]. discriminate H.
  - apply updateCompanionSuggestions_nil.
Qed.

(** ** Comparisons of numbers *)

Lemma ltb_leb (x y : float) : (x <? y)%float = true -> (x <=? y)%float = true.
Proof.
  rewrite ltb_spec, leb_spec. unfold SFltb, SFleb.
  now destruct (SFcompare (Prim2SF x) (Prim2SF y)) as [[| |]|].
Qed.


Lemma Math_max_one (x : float) :
  Math_max x 1 = PrimFloat.nan \/ (1 <=? Math_max x 1)%float = true.
Proof.
  unfold Math_max.
  destruct (PrimFloat.is_nan x); [now left|]. right.
  change (PrimFloat.is_nan 1) with false. simpl.
  destruct (x <? 1)%float; [reflexivity|].
  destruct (1 <? x)%float eqn:E; [now apply ltb_leb|].
  reflexivity.
Qed.

(** ** Rounding down *)

(** The integer [q] that [Math_floor] takes from a mantissa [m] and a
    negative exponent [e] is the integer part of [m * 2^e], and the test
    for an integral value is divisibility by [2^(-e)]. *)
Lemma floor_quotient (m : positive) (e : Z) :
  (e < 0)%Z ->
  let q := Z.shiftr (Z.pos m) (- e) in
  (q * 2 ^ (- e) <= Z.pos m < (q + 1) * 2 ^ (- e))%Z
  /\ (Z.shiftl q (- e) = Z.pos m <-> (Z.pos m mod 2 ^ (- e) = 0)%Z).
Proof.
  intros He q. subst q.
  assert (Hpow : (0 < 2 ^ (- e))%Z) by (apply Z.pow_pos_nonneg; lia).
  rewrite Z.shiftr_div_pow2, Z.shiftl_mul_pow2 by lia.
  pose proof (Z.div_mod (Z.pos m) (2 ^ (- e)) ltac:(lia)) as Hdm.
  pose proof (Z.mod_pos_bound (Z.pos m) (2 ^ (- e)) Hpow) as Hb.
  split; [nia|]. split; nia.
Qed.

Example Math_floor_values :
  (Math_floor 2.5 = 2 /\ Math_floor (-2.5) = -3 /\ Math_floor 0.5 = 0
   /\ Math_floor (-0.5) = -1 /\ Math_floor 23.1875 = 23 /\ Math_floor (-7) = -7
   /\ Math_floor (-0) = -0 /\ Math_floor PrimFloat.infinity = PrimFloat.infinity
   /\ Math_floor PrimFloat.nan = PrimFloat.nan
   /\ Math_floor 4503599627370495.5 = 4503599627370495)%float.
Proof. repeat split. Qed.

Example Math_max_min_values :
  (Math_max PrimFloat.nan 1 = PrimFloat.nan /\ Math_max 0 1 = 1 /\ Math_max 23 1 = 23
   /\ Math_max (-3) 1 = 1 /\ Math_max (-0) 0 = 0 /\ Math_min 0 (-0) = -0
   /\ Math_min 1 PrimFloat.infinity = 1 /\ Math_min 1 0.25 = 0.25
   /\ Math_min 1 PrimFloat.nan = PrimFloat.nan)%float.
Proof. repeat split. Qed.

(** ** Grid size *)

Lemma newGridSize_acre st :
  sizeMode st = Acre ->
  newGridSize st = Math_floor (PrimFloat.sqrt (propertySize st * 43560 / 81))%float.
Proof. intros H. unfold newGridSize. now rewrite H. Qed.

Lemma newGridSize_custom st :
  sizeMode st = Custom ->
  newGridSize st = Math_floor (Math_min (customLength st) (customWidth st) / 9)%float.
Proof. intros H. unfold newGridSize. now rewrite H. Qed.

Lemma gridSize_updateGridSize st :
  gridSize (updateGridSize st) = Math_max (newGridSize st) 1.
Proof. reflexivity. Qed.

(** The stored size is at least 1 unless it is [NaN]. *)
Lemma gridSize_clamped st :
  gridSize (updateGridSize st) = PrimFloat.nan
  \/ (1 <=? gridSize (updateGridSize st))%float = true.
Proof. rewrite gridSize_updateGridSize. apply Math_max_one. Qed.

Example gridSize_one_acre : gridSize (updateGridSize initialPlanner) = 23%float.
Proof. reflexivity. Qed.

Example gridSize_zero_acres :
  gridSize (updateGridSize (setPropertySize 0 initialPlanner)) = 1%float.
Proof. reflexivity. Qed.

Example gridSize_custom_zero :
  gridSize (updateGridSize (setSizeMode Custom initialPlanner)) = 1%float.
Proof. reflexivity. Qed.

Example gridSize_custom_negative :
  gridSize (updateGridSize
    (setCustomWidth 90 (setCustomLength (-18) (setSizeMode Custom initialPlanner))))
  = 1%float.
Proof. reflexivity. Qed.

Example gridSize_custom_45_by_100 :
  gridSize (updateGridSize
    (setCustomWidth 100 (setCustomLength 45 (setSizeMode Custom initialPlanner))))
  = 5%float.
Proof. reflexivity. Qed.

(** C4. In acre mode with a property size of -1 the square root is taken
    of a negative number, and the stored grid size is [NaN], not 1. *)
Theorem negative_acreage_grid_size_nan :
  sizeMode (setPropertySize (-1) initialPlanner) = Acre
  /\ propertySize (setPropertySize (-1) initialPlanner) = (-1)%float
  /\ gridSize (updateGridSize (setPropertySize (-1) initialPlanner)) = PrimFloat.nan
  /\ (1 <=? gridSize (updateGridSize (setPropertySize (-1) initialPlanner)))%float = false.
Proof. repeat split. Qed.

(** ** Profit and return on investment *)



(** ** Income *)

Section Income.
Variable plantDatabase : list plant.
Variable forestAge : float.




(** A placed plant whose id the catalog lacks leaves the income object as it
    was. *)
Lemma addIncome_unknown (o : JsObject.t amount) (p : plant) :
  findInDatabase plantDatabase p = None ->
  addIncome plantDatabase forestAge o p = o.
Proof. intros E. unfold addIncome. now rewrite E. Qed.

Lemma income_without_unknown (before after : list plant) (o : JsObject.t amount) (p : plant) :
  findInDatabase plantDatabase p = None ->
  fold_left (addIncome plantDatabase forestAge) (before ++ p :: after) o
  = fold_left (addIncome plantDatabase forestAge) (before ++ after) o.
Proof.
  intros E. rewrite !fold_left_app. simpl. now rewrite addIncome_unknown.
Qed.

(** When ids are unique, a catalog record is found under its own id. *)
Lemma findInDatabase_own (p : plant) :
  NoDup (List.map id plantDatabase) -> In p plantDatabase ->
  findInDatabase plantDatabase p = Some p.
Proof.
  unfold findInDatabase.
  induction plantDatabase as [|d db IH]; simpl; [tauto|].
  intros Hnd [->|Hin].
  - now rewrite Nat.eqb_refl.
  - inversion Hnd as [|? ? Hd Hdb]; subst.
    destruct (Nat.eqb_spec (id d) (id p)) as [E|_].
    + exfalso. apply Hd. rewrite E. apply list_elem_of_In. now apply in_map.
    + now apply IH.
Qed.

End Income.

(** ** Biodiversity *)

Lemma distinct_cons_new (x : string) (xs : list string) :
  ~ In x xs -> distinct (x :: xs) = S (distinct xs).
Proof.
  intros Hx. unfold distinct. simpl.
  rewrite size_union.
  - now rewrite size_singleton.
  - intros y Hy1 Hy2. apply elem_of_singleton in Hy1 as ->.
    apply elem_of_list_to_set, list_elem_of_In in Hy2. contradiction.
Qed.

(** [distinct] counts the list without its repetitions. *)
Lemma distinct_remove_dups (xs : list string) :
  distinct xs = length (remove_dups xs).
Proof.
  unfold distinct.
  rewrite <- (size_list_to_set (C := gset string) (remove_dups xs))
    by apply NoDup_remove_dups.
  f_equal. apply set_eq. intros x.
  now rewrite !elem_of_list_to_set, elem_of_remove_dups.
Qed.

Lemma distinct_incl (xs ys : list string) :
  (forall x, In x xs -> In x ys) -> distinct xs <= distinct ys.
Proof.
  intros H. unfold distinct. apply subseteq_size.
  intros x Hx. apply elem_of_list_to_set, list_elem_of_In in Hx.
  apply elem_of_list_to_set, list_elem_of_In. auto.
Qed.

Lemma distinct_same (xs ys : list string) :
  (forall x, In x xs <-> In x ys) -> distinct xs = distinct ys.
Proof.
  intros H. apply Nat.le_antisymm; apply distinct_incl; intros x; apply H.
Qed.

Lemma distinct_layers : distinct layers = 7.
Proof. vm_compute. reflexivity. Qed.

Lemma distinct_within_layers (xs : list string) :
  (forall x, In x xs -> In x layers) -> distinct xs <= 7.
Proof. intros H. rewrite <- distinct_layers. now apply distinct_incl. Qed.

Lemma biodiversityScore_unfold (plants : list plant) :
  biodiversityScore plants
  = distinct (List.map name plants) * 10
    + (if Nat.eqb (distinct (List.map layer plants)) 7 then 50 else 0).
Proof. reflexivity. Qed.

(** The score only depends on which names and layers occur. *)
Lemma biodiversityScore_same (ps qs : list plant) :
  (forall q, In q ps <-> In q qs) -> biodiversityScore ps = biodiversityScore qs.
Proof.
  intros H. rewrite !biodiversityScore_unfold.
  assert (Hf : forall f : plant -> string,
             distinct (List.map f ps) = distinct (List.map f qs)).
  { intros f. apply distinct_same. intros x. rewrite !in_map_iff.
    split; intros (q & <- & Hq); exists q; split; auto; now apply H. }
  now rewrite !Hf.
Qed.


Lemma allPlants_put_snoc (g : GridState) (key : string) (p q : plant) :
  In q (allPlants (JsObject.put g key (plantsAt g key ++ [p])))
  <-> q = p \/ In q (allPlants g).
Proof.
  unfold allPlants, plantsAt.
  induction g as [|[k cell] rest IH]; simpl.
  - intuition.
  - destruct (String.eqb k key); simpl.
    + rewrite !in_app_iff. simpl. intuition.
    + rewrite !in_app_iff, IH. intuition.
Qed.


(** With a layer outside the seven the score can drop: the eighth layer
    takes the bonus away. *)
Remark eighth_layer_drops_score :
  biodiversityScore fullStack = 120
  /\ biodiversityScore (fullStack ++ [kapok]) = 80.
Proof. split; vm_compute; reflexivity. Qed.



(** ** Cells are never present with an empty list *)

Lemma noEmptyCell_put (g : GridState) (key : string) (cell : list plant) :
  cell <> [] -> noEmptyCell g -> noEmptyCell (JsObject.put g key cell).
Proof.
  unfold noEmptyCell, JsObject.values. intros Hcell.
  induction g as [|[k c] rest IH]; simpl; intros Hg.
  - constructor; [exact Hcell | constructor].
  - inversion Hg as [|? ? Hc Hrest]; subst.
    destruct (String.eqb k key); simpl; constructor; auto.
Qed.

Lemma noEmptyCell_place (g : GridState) (key : string) (p : plant) :
  noEmptyCell g -> noEmptyCell (place key p g).
Proof.
  intros Hg. unfold place. destruct (belowCapacity _ _); [|exact Hg].
  apply noEmptyCell_put; [|exact Hg].
  intros E. now apply app_eq_nil in E as [_ E].
Qed.

Lemma noEmptyCell_erase (g : GridState) (key : string) :
  noEmptyCell g -> noEmptyCell (erase key g).
Proof.
  unfold noEmptyCell, erase, JsObject.values.
  induction g as [|[k c] rest IH]; simpl; intros Hg.
  - constructor.
  - inversion Hg as [|? ? Hc Hrest]; subst.
    destruct (String.eqb k key); simpl; [|constructor]; auto.
Qed.

Lemma noEmptyCell_placeAll (ops : list (Z * Z * plant)) : noEmptyCell (placeAll ops).
Proof.
  unfold placeAll.
  assert (H : forall g, noEmptyCell g ->
            noEmptyCell (fold_left (fun g '(x, y, p) => place (cellKey x y) p g) ops g)).
  { induction ops as [|[[x y] p] ops IH]; intros g Hg; simpl.
    - exact Hg.
    - apply IH, noEmptyCell_place, Hg. }
  apply H. constructor.
Qed.

(** On such a grid the number of occupied cells is the number of keys. *)
Lemma occupiedCells_noEmptyCell (g : GridState) :
  noEmptyCell g -> occupiedCells g = length g.
Proof.
  unfold noEmptyCell, occupiedCells, JsObject.values.
  induction g as [|[k c] rest IH]; simpl; intros Hg.
  - reflexivity.
  - inversion Hg as [|? ? Hc Hrest]; subst.
    destruct c as [|p c]; [contradiction|]. simpl. now rewrite IH.
Qed.

(** ** A worked layout

    Mango and Lemongrass planted in cell (0, 0): one pair, reported as good
    companions; two species and two layers; a second canopy tree in the
    same cell is refused. *)
Example mango_lemongrass_layout :
  let g := placeAll [(0, 0, mango); (0, 0, lemongrass)]%Z in
  plantsAt g (cellKey 0 0) = [mango; lemongrass]
  /\ analyzePlantCompatibility g
     = {| compatibilityReport := ["Mango and Lemongrass are good companions."];
          incompatiblePairs := [] |}
  /\ biodiversityScore (allPlants g) = 20
  /\ place (cellKey 0 0) avocado g = g.
Proof. repeat split. Qed.

(** * Further properties *)

(** ** Invariants of the grid *)

Lemma keys_put {V : Type} (o : JsObject.t V) (k : string) (v : V) :
  List.map fst (JsObject.put o k v)
  = match JsObject.get o k with
    | Some _ => List.map fst o
    | None => List.map fst o ++ [k]
    end.
Proof.
  induction o as [|[k' v'] rest IH]; simpl; [reflexivity|].
  destruct (String.eqb_spec k' k) as [->|Hk]; simpl; [reflexivity|].
  rewrite IH. now destruct (JsObject.get rest k).
Qed.

Lemma get_None_keys {V : Type} (o : JsObject.t V) (k : string) :
  JsObject.get o k = None <-> ~ In k (List.map fst o).
Proof.
  induction o as [|[k' v'] rest IH]; simpl; [tauto|].
  destruct (String.eqb_spec k' k) as [->|Hk].
  - split; [discriminate | tauto].
  - rewrite IH. tauto.
Qed.

Lemma keys_omit {V : Type} (o : JsObject.t V) (k : string) :
  List.map fst (JsObject.omit o k)
  = List.filter (fun k' => negb (String.eqb k' k)) (List.map fst o).
Proof.
  induction o as [|[k' v'] rest IH]; simpl; [reflexivity|].
  destruct (String.eqb k' k); simpl; now rewrite IH.
Qed.

Lemma uniqueKeys_put (g : GridState) (key : string) (cell : list plant) :
  uniqueKeys g -> uniqueKeys (JsObject.put g key cell).
Proof.
  unfold uniqueKeys. intros Hg. rewrite keys_put.
  destruct (JsObject.get g key) eqn:E; [exact Hg|].
  apply NoDup_app. split; [exact Hg|]. split.
  - intros k Hk Hk'. apply list_elem_of_In in Hk, Hk'.
    destruct Hk' as [<-|[]]. apply get_None_keys in E. contradiction.
  - apply NoDup_singleton.
Qed.

Lemma uniqueKeys_omit (g : GridState) (key : string) :
  uniqueKeys g -> uniqueKeys (JsObject.omit g key).
Proof.
  unfold uniqueKeys. intros Hg. rewrite keys_omit.
  induction (List.map fst g) as [|k ks IH]; simpl; [constructor|].
  apply NoDup_cons in Hg as [Hk Hks].
  destruct (String.eqb k key); simpl; [now apply IH|].
  apply NoDup_cons. split; [|now apply IH].
  intros Hin. apply Hk. apply list_elem_of_In in Hin.
  apply List.filter_In in Hin as [Hin _]. now apply list_elem_of_In.
Qed.

Lemma cellKeys_put (g : GridState) (x y : Z) (cell : list plant) :
  cellKeys g -> cellKeys (JsObject.put g (cellKey x y) cell).
Proof.
  unfold cellKeys. intros Hg. rewrite keys_put.
  destruct (JsObject.get g (cellKey x y)); [exact Hg|].
  apply Forall_app. split; [exact Hg|].
  constructor; [now exists x, y | constructor].
Qed.

Lemma cellKeys_omit (g : GridState) (key : string) :
  cellKeys g -> cellKeys (JsObject.omit g key).
Proof.
  unfold cellKeys. intros Hg. rewrite keys_omit.
  induction (List.map fst g) as [|k ks IH]; simpl; [constructor|].
  apply Forall_cons in Hg as [Hk Hks].
  destruct (String.eqb k key); simpl; [now apply IH|].
  constructor; [exact Hk | now apply IH].
Qed.

(** The conjunction of what every update keeps. *)
Lemma act_keeps (g : GridState) (a : action) :
  capped g /\ noEmptyCell g /\ uniqueKeys g /\ cellKeys g ->
  capped (act g a) /\ noEmptyCell (act g a) /\ uniqueKeys (act g a)
  /\ cellKeys (act g a).
Proof.
  intros (Hc & He & Hu & Hk). destruct a as [x y p|x y|]; simpl.
  - repeat split.
    + now apply capped_place.
    + now apply noEmptyCell_place.
    + unfold place. destruct (belowCapacity _ _); [|exact Hu].
      now apply uniqueKeys_put.
    + unfold place. destruct (belowCapacity _ _); [|exact Hk].
      now apply cellKeys_put.
  - repeat split.
    + now apply capped_erase.
    + now apply noEmptyCell_erase.
    + now apply uniqueKeys_omit.
    + now apply cellKeys_omit.
  - repeat split.
    + apply capped_empty.
    + constructor.
    + constructor.
    + constructor.
Qed.

Lemma runActions_keeps (acts : list action) (g : GridState) :
  capped g /\ noEmptyCell g /\ uniqueKeys g /\ cellKeys g ->
  capped (fold_left act acts g) /\ noEmptyCell (fold_left act acts g)
  /\ uniqueKeys (fold_left act acts g) /\ cellKeys (fold_left act acts g).
Proof.
  revert g. induction acts as [|a acts IH]; intros g Hg; simpl.
  - exact Hg.
  - apply IH, act_keeps, Hg.
Qed.

(** X1. After any sequence of placements, erasures and resets of the empty
    grid, every layer of every cell is within its cap, no cell is stored
    with an empty list, and no key is stored twice; hence the occupied
    cells are exactly the stored keys, and a cell is empty exactly when its
    key is absent. *)
Theorem grid_invariants (acts : list action) :
  (forall x y l, layerCount l (plantsAt (runActions acts) (cellKey x y)) <= cap l)
  /\ noEmptyCell (runActions acts)
  /\ uniqueKeys (runActions acts)
  /\ occupiedCells (runActions acts) = length (runActions acts)
  /\ (forall x y, plantsAt (runActions acts) (cellKey x y) = []
                  <-> JsObject.get (runActions acts) (cellKey x y) = None).
Proof.
  destruct (runActions_keeps acts []) as (Hc & He & Hu & _).
  { repeat split; try constructor. apply capped_empty. }
  repeat split; auto.
  - now apply occupiedCells_noEmptyCell.
  - now apply empty_cell_absent.
  - intros E. unfold plantsAt. now rewrite E.
Qed.

(** ** Placing, erasing and inspecting *)

Lemma omit_put {V : Type} (o : JsObject.t V) (k : string) (v : V) :
  JsObject.omit (JsObject.put o k v) k = JsObject.omit o k.
Proof.
  induction o as [|[k' v'] rest IH]; simpl.
  - now rewrite String.eqb_refl.
  - destruct (String.eqb k' k) eqn:E; simpl; rewrite E; [reflexivity|].
    now rewrite IH.
Qed.

Lemma length_allPlants_put_snoc (g : GridState) (key : string) (p : plant) :
  length (allPlants (JsObject.put g key (plantsAt g key ++ [p])))
  = S (length (allPlants g)).
Proof.
  unfold allPlants, plantsAt.
  induction g as [|[k cell] rest IH]; simpl; [reflexivity|].
  destruct (String.eqb k key); simpl.
  - rewrite !length_app. simpl. lia.
  - rewrite !length_app, IH. lia.
Qed.

Lemma belowCapacity_iff (n : nat) (l : string) :
  existsb (String.eqb l) Object_prototype = false ->
  belowCapacity n (capacityFor l) = true <-> n < cap l.
Proof.
  intros Hown. rewrite (capacityFor_cap l Hown). simpl. apply Nat.ltb_lt.
Qed.

(** X2. For a species whose layer is not named like a member of
    [Object.prototype], a placement is accepted exactly when the cell holds
    fewer plants of that layer than the cap.  An accepted placement puts
    the plant last in its cell, after the plants already there, and the
    grid holds one plant more; a refused one returns the grid as it was. *)
Theorem place_accepts_below_cap (g : GridState) (x y : Z) (p : plant) :
  existsb (String.eqb (layer p)) Object_prototype = false ->
  (layerCount (layer p) (plantsAt g (cellKey x y)) < cap (layer p) ->
   plantsAt (place (cellKey x y) p g) (cellKey x y) = plantsAt g (cellKey x y) ++ [p]
   /\ length (allPlants (place (cellKey x y) p g)) = S (length (allPlants g)))
  /\ (cap (layer p) <= layerCount (layer p) (plantsAt g (cellKey x y)) ->
      place (cellKey x y) p g = g).
Proof.
  intros Hown. split.
  - intros Hlt. apply (belowCapacity_iff _ _ Hown) in Hlt. split.
    + now apply plantsAt_place_eq.
    + unfold place. rewrite Hlt. apply length_allPlants_put_snoc.
  - apply place_over_cap.
Qed.

Lemma place_accepts_below_cap_witness :
  plantsAt (place (cellKey 0 0) lemongrass (placeAll [(0, 0, mango)%Z])) (cellKey 0 0)
  = [mango; lemongrass]
  /\ place (cellKey 0 0) avocado (placeAll [(0, 0, mango)%Z])
     = placeAll [(0, 0, mango)%Z].
Proof.
  split.
  - apply (proj1 (proj1 (place_accepts_below_cap (placeAll [(0, 0, mango)%Z])
                           0 0 lemongrass eq_refl) ltac:(vm_compute; lia))).
  - apply (proj2 (place_accepts_below_cap (placeAll [(0, 0, mango)%Z])
                    0 0 avocado eq_refl)).
    vm_compute. lia.
Defined.

(** X3. Erasing a cell right after placing into it gives the grid that
    erasing alone gives, whether the placement was accepted or not; when
    the cell was empty before, it gives back the grid from before the
    placement. *)
Theorem erase_after_place (g : GridState) (x y : Z) (p : plant) :
  erase (cellKey x y) (place (cellKey x y) p g) = erase (cellKey x y) g
  /\ (JsObject.get g (cellKey x y) = None ->
      erase (cellKey x y) (place (cellKey x y) p g) = g).
Proof.
  assert (H : erase (cellKey x y) (place (cellKey x y) p g) = erase (cellKey x y) g).
  { unfold erase, place. destruct (belowCapacity _ _); [|reflexivity].
    apply omit_put. }
  split; [exact H|].
  intros Habs. rewrite H. now apply omit_absent.
Qed.

Lemma erase_after_place_witness :
  JsObject.get (placeAll [(0, 0, mango)%Z]) (cellKey 1 0) = None
  /\ erase (cellKey 1 0) (place (cellKey 1 0) banana (placeAll [(0, 0, mango)%Z]))
     = placeAll [(0, 0, mango)%Z].
Proof.
  split; [reflexivity|].
  apply (proj2 (erase_after_place (placeAll [(0, 0, mango)%Z]) 1 0 banana)).
  reflexivity.
Defined.

Lemma inspected_snoc (g : GridState) (key : string) (cell : list plant) (p : plant) :
  plantsAt g key = cell ++ [p] -> inspected g key = Some p.
Proof.
  intros E. unfold inspected. rewrite E, length_app. simpl.
  replace (length cell + 1 - 1) with (length cell) by lia.
  destruct (Nat.ltb_spec 0 (length cell + 1)); [|lia].
  rewrite nth_error_app2 by lia. now rewrite Nat.sub_diag.
Qed.

(** X4. The info tool shows the plant placed last: after an accepted
    placement it shows the plant just placed, after an erasure it shows
    nothing, it shows nothing exactly when the cell is empty, and a
    placement or erasure elsewhere does not change what it shows. *)
Theorem inspected_is_last_placed (g : GridState) (x y : Z) (p : plant) :
  (belowCapacity (layerCount (layer p) (plantsAt g (cellKey x y)))
     (capacityFor (layer p)) = true ->
   inspected (place (cellKey x y) p g) (cellKey x y) = Some p)
  /\ inspected (erase (cellKey x y) g) (cellKey x y) = None
  /\ (inspected g (cellKey x y) = None <-> plantsAt g (cellKey x y) = [])
  /\ (forall x' y', (x, y) <> (x', y') ->
        inspected (place (cellKey x y) p g) (cellKey x' y') = inspected g (cellKey x' y')
        /\ inspected (erase (cellKey x y) g) (cellKey x' y') = inspected g (cellKey x' y')).
Proof.
  repeat split.
  - intros Hb. apply (inspected_snoc _ _ (plantsAt g (cellKey x y))).
    now apply plantsAt_place_eq.
  - unfold inspected. now rewrite plantsAt_erase_eq.
  - unfold inspected. destruct (plantsAt g (cellKey x y)) as [|q cell] eqn:E.
    + reflexivity.
    + simpl. rewrite Nat.sub_0_r. intros Hn.
      apply nth_error_None in Hn. simpl in Hn. lia.
  - intros E. unfold inspected. now rewrite E.
  - unfold inspected. rewrite plantsAt_place_ne; [reflexivity|].
    intros E. apply cellKey_inj in E as [-> ->]. now apply H.
  - unfold inspected. rewrite plantsAt_erase_ne; [reflexivity|].
    intros E. apply cellKey_inj in E as [-> ->]. now apply H.
Qed.

Lemma inspected_is_last_placed_witness :
  inspected (place (cellKey 0 0) lemongrass (placeAll [(0, 0, mango)%Z])) (cellKey 0 0)
  = Some lemongrass
  /\ inspected (place (cellKey 0 0) lemongrass (placeAll [(1, 0, mango)%Z])) (cellKey 1 0)
     = Some mango.
Proof.
  split.
  - apply (proj1 (inspected_is_last_placed (placeAll [(0, 0, mango)%Z]) 0 0 lemongrass)).
    reflexivity.
  - destruct (inspected_is_last_placed (placeAll [(1, 0, mango)%Z]) 0 0 lemongrass)
      as (_ & _ & _ & Hother).
    rewrite (proj1 (Hother 1%Z 0%Z ltac:(discriminate))). reflexivity.
Defined.

(** ** How many plants a cell and a grid hold *)

Lemma length_allPlants_omit (g : GridState) (key : string) :
  uniqueKeys g ->
  length (allPlants (JsObject.omit g key)) + length (plantsAt g key)
  = length (allPlants g).
Proof.
  unfold uniqueKeys, allPlants, plantsAt.
  induction g as [|[k cell] rest IH]; simpl; intros Hu; [reflexivity|].
  apply NoDup_cons in Hu as [Hk Hrest].
  destruct (String.eqb_spec k key) as [->|Hne]; simpl.
  - rewrite length_app.
    assert (Habs : JsObject.get rest key = None).
    { apply get_None_keys. intros Hin. apply Hk. now apply list_elem_of_In. }
    rewrite (omit_absent rest key Habs). lia.
  - rewrite !length_app. specialize (IH Hrest). lia.
Qed.

(** X5. On a grid reached by placements, erasures and resets, erasing a
    cell takes away exactly the plants of that cell: the grid holds as many
    plants fewer as the cell held. *)
Theorem erase_removes_cell_plants (acts : list action) (x y : Z) :
  length (allPlants (erase (cellKey x y) (runActions acts)))
  + length (plantsAt (runActions acts) (cellKey x y))
  = length (allPlants (runActions acts)).
Proof.
  apply length_allPlants_omit.
  destruct (runActions_keeps acts []) as (_ & _ & Hu & _); [|exact Hu].
  repeat split; try constructor. apply capped_empty.
Qed.

Lemma length_by_layer (cell : list plant) :
  (forall q, In q cell -> In (layer q) layers) ->
  length cell
  = layerCount "Canopy" cell + layerCount "Sub-canopy" cell
    + layerCount "Shrub" cell + layerCount "Herbaceous" cell
    + layerCount "Ground Cover" cell + layerCount "Vine" cell
    + layerCount "Root" cell.
Proof.
  induction cell as [|q cell IH]; intros Hl; [reflexivity|].
  specialize (IH (fun r Hr => Hl r (or_intror Hr))).
  pose proof (Hl q (or_introl eq_refl)) as Hq.
  unfold layerCount in *. cbn [List.filter length].
  unfold layers in Hq. cbn [In] in Hq.
  destruct Hq as [E|[E|[E|[E|[E|[E|[E|[]]]]]]]]; rewrite <- E; simpl; lia.
Qed.

Lemma In_allPlants_omit (g : GridState) (key : string) (q : plant) :
  In q (allPlants (JsObject.omit g key)) -> In q (allPlants g).
Proof.
  unfold allPlants.
  induction g as [|[k cell] rest IH]; simpl; [tauto|].
  destruct (String.eqb k key); simpl; rewrite ?in_app_iff; tauto.
Qed.

Lemma In_plantsAt_allPlants (g : GridState) (key : string) (q : plant) :
  In q (plantsAt g key) -> In q (allPlants g).
Proof.
  unfold plantsAt, allPlants.
  destruct (JsObject.get g key) as [cell|] eqn:E; simpl; [|tauto].
  intros Hq. apply in_concat. exists cell. split; [|exact Hq].
  now apply get_Some_In in E.
Qed.

Lemma layers_kept (acts : list action) (g : GridState) :
  (forall x y p, In (PlaceAt x y p) acts -> In (layer p) layers) ->
  (forall q, In q (allPlants g) -> In (layer q) layers) ->
  forall q, In q (allPlants (fold_left act acts g)) -> In (layer q) layers.
Proof.
  revert g. induction acts as [|a acts IH]; intros g Hacts Hg; simpl; [exact Hg|].
  apply IH.
  - intros x y p Hin. apply (Hacts x y p). now right.
  - intros q Hq. destruct a as [x y p|x y|]; simpl in Hq.
    + unfold place in Hq. destruct (belowCapacity _ _); [|now apply Hg].
      apply allPlants_put_snoc in Hq as [->|Hq]; [|now apply Hg].
      apply (Hacts x y p). now left.
    + apply Hg. now apply In_allPlants_omit in Hq.
    + destruct Hq.
Qed.

(** X6. When every species placed has one of the seven layers, no cell
    ever holds more than 40 plants (1 canopy, 4 shrubs and 7 of each of the
    five other layers). *)
Theorem cell_holds_at_most_40 (acts : list action) (x y : Z) :
  (forall x' y' p, In (PlaceAt x' y' p) acts -> In (layer p) layers) ->
  length (plantsAt (runActions acts) (cellKey x y)) <= 40.
Proof.
  intros Hacts.
  destruct (runActions_keeps acts []) as (Hc & _).
  { repeat split; try constructor. apply capped_empty. }
  rewrite length_by_layer.
  - pose proof (Hc (cellKey x y) "Canopy"). pose proof (Hc (cellKey x y) "Sub-canopy").
    pose proof (Hc (cellKey x y) "Shrub"). pose proof (Hc (cellKey x y) "Herbaceous").
    pose proof (Hc (cellKey x y) "Ground Cover"). pose proof (Hc (cellKey x y) "Vine").
    pose proof (Hc (cellKey x y) "Root").
    change (cap "Canopy") with 1 in *. change (cap "Sub-canopy") with 7 in *.
    change (cap "Shrub") with 4 in *. change (cap "Herbaceous") with 7 in *.
    change (cap "Ground Cover") with 7 in *. change (cap "Vine") with 7 in *.
    change (cap "Root") with 7 in *.
    unfold runActions in *. lia.
  - intros q Hq. apply In_plantsAt_allPlants in Hq.
    apply (layers_kept acts [] Hacts); [intros r []|exact Hq].
Qed.

Lemma cell_holds_at_most_40_witness :
  length (plantsAt (runActions [PlaceAt 0 0 mango; PlaceAt 0 0 avocado;
                                PlaceAt 0 0 lemongrass; EraseAt 1 1;
                                PlaceAt 0 0 comfrey]) (cellKey 0 0)) <= 40.
Proof.
  apply cell_holds_at_most_40.
  intros x' y' p Hin. cbn [In] in Hin.
  destruct Hin as [E|[E|[E|[E|[E|[]]]]]]; inversion E; subst; cbv; tauto.
Defined.

(** ** What the compatibility analysis reports *)

Lemma length_examinedPairs (plantList : list plant) :
  2 * length (examinedPairs plantList) = length plantList * (length plantList - 1).
Proof.
  induction plantList as [|p later IH]; [reflexivity|].
  cbn [examinedPairs length]. rewrite length_app, length_map.
  destruct later as [|q later]; [reflexivity|].
  cbn [length] in *. nia.
Qed.

Lemma lists_excludes_neither (pairs : list (plant * plant)) :
  length (List.filter lists pairs) + length (List.filter neitherLists pairs)
  <= length pairs.
Proof.
  induction pairs as [|pq pairs IH]; cbn [List.filter length]; [lia|].
  assert (H : lists pq = true -> neitherLists pq = false).
  { intros E. unfold neitherLists. now rewrite E. }
  destruct (lists pq); [rewrite H by reflexivity|];
    destruct (neitherLists pq); cbn [length]; lia.
Qed.

(** X7. The analysis examines each plant with every plant after it in the
    enumeration of the grid, n(n-1)/2 pairs for n plants.  The report holds,
    in that order, one message for each pair whose earlier plant lists the
    later one; the other list one message for each pair in which neither
    lists the other; so there is at most one message per pair, and none at
    all when the grid holds fewer than two plants. *)
Theorem compatibility_lists_by_pairs (g : GridState) :
  compatibilityReport (analyzePlantCompatibility g)
  = List.map (fun pq => goodCompanions (fst pq) (snd pq))
      (List.filter lists (examinedPairs (allPlants g)))
  /\ incompatiblePairs (analyzePlantCompatibility g)
     = List.map (fun pq => notIdeal (fst pq) (snd pq))
         (List.filter neitherLists (examinedPairs (allPlants g)))
  /\ 2 * length (examinedPairs (allPlants g))
     = length (allPlants g) * (length (allPlants g) - 1)
  /\ length (compatibilityReport (analyzePlantCompatibility g))
     + length (incompatiblePairs (analyzePlantCompatibility g))
     <= length (examinedPairs (allPlants g))
  /\ (length (allPlants g) <= 1 ->
      analyzePlantCompatibility g
      = {| compatibilityReport := []; incompatiblePairs := [] |}).
Proof.
  destruct (outerLoop_lists (allPlants g)
              {| compatibilityReport := []; incompatiblePairs := [] |}) as [Hr Hi].
  simpl in Hr, Hi. unfold analyzePlantCompatibility.
  split; [exact Hr|]. split; [exact Hi|].
  split; [apply length_examinedPairs|]. split.
  - rewrite Hr, Hi, !length_map. apply lists_excludes_neither.
  - intros Hn. destruct (allPlants g) as [|p [|q rest]]; simpl in *;
      [reflexivity | reflexivity | lia].
Qed.

Lemma compatibility_lists_by_pairs_witness :
  length (allPlants (placeAll [(0, 0, mango)%Z])) <= 1
  /\ analyzePlantCompatibility (placeAll [(0, 0, mango)%Z])
     = {| compatibilityReport := []; incompatiblePairs := [] |}.
Proof.
  split.
  - vm_compute. lia.
  - apply (proj2 (proj2 (proj2 (proj2
             (compatibility_lists_by_pairs (placeAll [(0, 0, mango)%Z])))))).
    vm_compute. lia.
Defined.

Lemma examinedPairs_In (pre mid post : list plant) (a b : plant) :
  In (a, b) (examinedPairs (pre ++ a :: mid ++ b :: post)).
Proof.
  induction pre as [|p pre IH]; simpl.
  - apply in_or_app. left. apply in_map, in_or_app. right. now left.
  - apply in_or_app. now right.
Qed.

(** X8. For a plant [a] enumerated before a plant [b]: when [a] lists [b]
    the report says that they are good companions, and when neither lists
    the other the second list says that they may not be ideal companions.
    Two plants of one species are such a pair too. *)
Theorem earlier_plant_decides (g : GridState) (pre mid post : list plant)
    (a b : plant) :
  allPlants g = pre ++ a :: mid ++ b :: post ->
  (includes (companions a) (name b) = true ->
   In (goodCompanions a b) (compatibilityReport (analyzePlantCompatibility g)))
  /\ (includes (companions a) (name b) = false ->
      includes (companions b) (name a) = false ->
      In (notIdeal a b) (incompatiblePairs (analyzePlantCompatibility g))).
Proof.
  intros Hg.
  destruct (outerLoop_lists (allPlants g)
              {| compatibilityReport := []; incompatiblePairs := [] |}) as [Hr Hi].
  simpl in Hr, Hi. unfold analyzePlantCompatibility. rewrite Hr, Hi, Hg.
  pose proof (examinedPairs_In pre mid post a b) as Hin.
  split.
  - intros Hl.
    apply (in_map (fun pq => goodCompanions (fst pq) (snd pq)) _ (a, b)).
    apply List.filter_In. split; [exact Hin | exact Hl].
  - intros Hab Hba.
    apply (in_map (fun pq => notIdeal (fst pq) (snd pq)) _ (a, b)).
    apply List.filter_In. split; [exact Hin|].
    unfold neitherLists, lists. simpl. now rewrite Hab, Hba.
Qed.

Lemma earlier_plant_decides_witness :
  In "Mango and Lemongrass are good companions."
     (compatibilityReport (analyzePlantCompatibility sampleGrid))
  /\ In "Mango and Mango may not be ideal companions."
       (incompatiblePairs (analyzePlantCompatibility sampleGrid)).
Proof.
  split.
  - apply (proj1 (earlier_plant_decides sampleGrid [] [] [mango; banana]
                    mango lemongrass eq_refl)).
    reflexivity.
  - apply (proj2 (earlier_plant_decides sampleGrid [] [lemongrass] [banana]
                    mango mango eq_refl)); reflexivity.
Defined.

(** ** What [getCompanionSuggestions] returns *)

Lemma includes_In (xs : list string) (s : string) :
  includes xs s = true <-> In s xs.
Proof.
  unfold includes. rewrite existsb_exists. split.
  - intros (x & Hx & E). apply String.eqb_eq in E. now subst.
  - intros H. exists s. split; [exact H | apply String.eqb_refl].
Qed.

Lemma In_setAdd (suggestions : list string) (c s : string) :
  In s (setAdd suggestions c) <-> In s suggestions \/ s = c.
Proof.
  unfold setAdd. destruct (includes suggestions c) eqn:E.
  - apply includes_In in E. split; [tauto|]. intros [H| ->]; assumption.
  - rewrite in_app_iff. simpl. intuition.
Qed.

Lemma NoDup_setAdd (suggestions : list string) (c : string) :
  NoDup suggestions -> NoDup (setAdd suggestions c).
Proof.
  intros Hnd. unfold setAdd. destruct (includes suggestions c) eqn:E; [exact Hnd|].
  apply NoDup_app. split; [exact Hnd|]. split; [|apply NoDup_singleton].
  intros x Hx Hc. apply list_elem_of_In in Hx, Hc. destruct Hc as [<-|[]].
  apply includes_In in Hx. congruence.
Qed.

Lemma considerCompanions_In (selected : list element) (cs acc : list string) (s : string) :
  In s (fold_left (considerCompanion selected) cs acc)
  <-> In s acc \/ (In s cs /\ includesName selected s = false).
Proof.
  revert acc. induction cs as [|c cs IH]; intros acc; simpl; [tauto|].
  rewrite IH. unfold considerCompanion.
  destruct (includesName selected c) eqn:E; simpl.
  - split; [tauto|]. intros [H|[[<-|H] Hs]]; [tauto|congruence|tauto].
  - rewrite In_setAdd. split.
    + intros [[H| ->]|H]; tauto.
    + intros [H|[[<-|H] Hs]]; tauto.
Qed.

Lemma considerCompanions_NoDup (selected : list element) (cs acc : list string) :
  NoDup acc -> NoDup (fold_left (considerCompanion selected) cs acc).
Proof.
  revert acc. induction cs as [|c cs IH]; intros acc Hnd; simpl; [exact Hnd|].
  apply IH. unfold considerCompanion.
  destruct (negb (includesName selected c)); [now apply NoDup_setAdd | exact Hnd].
Qed.

Lemma considerPlants_In (selected es : list element) (acc : list string) (s : string) :
  In s (fold_left (considerPlant selected) es acc)
  <-> In s acc
      \/ (exists p, In (Species p) es /\ In s (companions p)
                    /\ includesName selected s = false).
Proof.
  revert acc. induction es as [|e es IH]; intros acc; cbn [fold_left In].
  - split; [tauto|]. intros [H|(p & [] & _)]. exact H.
  - rewrite IH. destruct e as [n|q]; unfold considerPlant at 1; cbn [companionsOf].
    + split.
      * intros [H|(p & Hp & Hs)]; [tauto|]. right. exists p. tauto.
      * intros [H|(p & [Hp|Hp] & Hs)]; [tauto|discriminate|]. right. exists p. tauto.
    + rewrite considerCompanions_In. split.
      * intros [[H|[Hs Hn]]|(p & Hp & Hs)]; [tauto| |].
        -- right. exists q. tauto.
        -- right. exists p. tauto.
      * intros [H|(p & [Hp|Hp] & Hs & Hn)]; [tauto| |].
        -- inversion Hp; subst. tauto.
        -- right. exists p. tauto.
Qed.

Lemma considerPlants_NoDup (selected es : list element) (acc : list string) :
  NoDup acc -> NoDup (fold_left (considerPlant selected) es acc).
Proof.
  revert acc. induction es as [|e es IH]; intros acc Hnd; simpl; [exact Hnd|].
  apply IH. destruct e as [n|q]; unfold considerPlant; cbn [companionsOf];
    [exact Hnd|].
  now apply considerCompanions_NoDup.
Qed.

(** X9. Whatever mix of names and records it is handed,
    [getCompanionSuggestions] returns each name at most once, and a name is
    returned exactly when some record among the elements lists it as a
    companion and it is not one of the names among the elements. *)
Theorem suggestions_characterised (selectedPlants : list element) (s : string) :
  NoDup (getCompanionSuggestions selectedPlants)
  /\ (In s (getCompanionSuggestions selectedPlants)
      <-> (exists p, In (Species p) selectedPlants /\ In s (companions p))
          /\ ~ In (Name s) selectedPlants).
Proof.
  unfold getCompanionSuggestions. split.
  - apply considerPlants_NoDup. constructor.
  - rewrite considerPlants_In.
    assert (Hn : includesName selectedPlants s = false <-> ~ In (Name s) selectedPlants).
    { unfold includesName. rewrite <- not_true_iff_false, existsb_exists. split.
      - intros H Hin. apply H. exists (Name s). split; [exact Hin|apply String.eqb_refl].
      - intros H ([n|q] & Hin & E); [|discriminate].
        apply String.eqb_eq in E. subst. contradiction. }
    split.
    + intros [[]|(p & Hp & Hs & Hi)]. split; [now exists p | now apply Hn].
    + intros [(p & Hp & Hs) Hi]. right. exists p. repeat split; auto. now apply Hn.
Qed.

(** ** More on comparisons of numbers *)

Lemma SFcompare_antisym (x y : spec_float) :
  SFcompare y x = option_map CompOpp (SFcompare x y).
Proof.
  destruct x as [[|]|[|]| |[|] m e], y as [[|]|[|]| |[|] m' e'];
    try reflexivity; simpl; rewrite (Z.compare_antisym e e');
    destruct (e ?= e')%Z; simpl; rewrite ?Pos.compare_cont_antisym; reflexivity.
Qed.

Lemma SFcompare_refl (x : spec_float) :
  x <> S754_nan -> SFcompare x x = Some Eq.
Proof.
  destruct x as [[|]|[|]| |[|] m e]; intros Hx; try reflexivity;
    try contradiction; simpl; rewrite Z.compare_refl;
    change (Pos.compare_cont Eq m m) with (Pos.compare m m);
    now rewrite Pos.compare_refl.
Qed.

Lemma SFcompare_None (x y : spec_float) :
  SFcompare x y = None -> x = S754_nan \/ y = S754_nan.
Proof.
  destruct x as [[|]|[|]| |[|] m e], y as [[|]|[|]| |[|] m' e'];
    simpl; intros H; try discriminate; auto.
Qed.

Lemma is_nan_false (x : float) :
  PrimFloat.is_nan x = false <-> Prim2SF x <> S754_nan.
Proof.
  unfold PrimFloat.is_nan. rewrite FloatAxioms.eqb_spec. unfold SFeqb. split.
  - intros H E. rewrite E in H. discriminate H.
  - intros H. now rewrite (SFcompare_refl _ H).
Qed.

(** The factor [Math.min(1, x)] is [NaN] or at most 1. *)
Lemma Math_min_one_le (x : float) :
  Math_min 1 x = PrimFloat.nan \/ (Math_min 1 x <=? 1)%float = true.
Proof.
  unfold Math_min. change (PrimFloat.is_nan 1) with false. cbn [orb].
  destruct (PrimFloat.is_nan x) eqn:Hnan; [now left|]. right.
  destruct (x <? 1)%float eqn:Hlt; [now apply ltb_leb|].
  destruct (1 <? x)%float eqn:Hgt; [reflexivity|].
  destruct (PrimFloat.get_sign x); [|reflexivity].
  apply is_nan_false in Hnan.
  rewrite ltb_spec in Hlt, Hgt. rewrite leb_spec.
  unfold SFltb, SFleb in *.
  rewrite (SFcompare_antisym (Prim2SF x) (Prim2SF 1)) in Hgt.
  destruct (SFcompare (Prim2SF x) (Prim2SF 1)) as [[| |]|] eqn:E;
    simpl in *; try reflexivity; try discriminate.
  apply SFcompare_None in E as [E|E]; [contradiction | discriminate E].
Qed.

(** The factor is exactly 1 as soon as the quotient is at least 1. *)
Lemma Math_min_one_ge (x : float) :
  (1 <=? x)%float = true -> Math_min 1 x = 1%float.
Proof.
  intros Hle. unfold Math_min. change (PrimFloat.is_nan 1) with false. cbn [orb].
  rewrite leb_spec in Hle. unfold SFleb in Hle.
  assert (Hnan : PrimFloat.is_nan x = false).
  { apply is_nan_false. intros E. rewrite E in Hle. discriminate Hle. }
  rewrite Hnan.
  assert (Hlt : (x <? 1)%float = false).
  { rewrite ltb_spec. unfold SFltb.
    rewrite (SFcompare_antisym (Prim2SF 1) (Prim2SF x)).
    now destruct (SFcompare (Prim2SF 1) (Prim2SF x)) as [[| |]|]. }
  rewrite Hlt. destruct (1 <? x)%float; [reflexivity|].
  assert (Hsign : PrimFloat.get_sign x = false).
  { unfold PrimFloat.get_sign, PrimFloat.is_zero.
    rewrite FloatAxioms.eqb_spec. unfold SFeqb.
    change (Prim2SF PrimFloat.zero) with (S754_zero false).
    change (Prim2SF 1) with (S754_finite false 4503599627370496 (-52)) in Hle.
    destruct (Prim2SF x) as [[|]|[|]| |[|] m e] eqn:E; simpl in Hle;
      try discriminate Hle; simpl; rewrite ltb_spec, E; reflexivity. }
  now rewrite Hsign.
Qed.

(** X10. The maturity factor [Math.min(1, forestAge / maturityAge)] is
    never above 1, and it is exactly 1 as soon as the quotient is at least
    1; so the amount [plantIncome] credits to a mature plant is its yield
    times 1 times its price. *)
Theorem maturity_factor_capped (forestAge : float) (dbPlant : plant) :
  (Math_min 1 (forestAge / maturityAge dbPlant) = PrimFloat.nan
   \/ (Math_min 1 (forestAge / maturityAge dbPlant) <=? 1)%float = true)
  /\ ((1 <=? forestAge / maturityAge dbPlant)%float = true ->
      Math_min 1 (forestAge / maturityAge dbPlant) = 1%float
      /\ plantIncome forestAge dbPlant
         = (yieldPerYear dbPlant * 1 * marketPrice dbPlant)%float).
Proof.
  split; [apply Math_min_one_le|].
  intros Hle. unfold plantIncome. now rewrite (Math_min_one_ge _ Hle).
Qed.

Lemma maturity_factor_capped_witness :
  (1 <=? 40 / maturityAge mango)%float = true
  /\ plantIncome 40 mango = 100%float.
Proof.
  split; [reflexivity|].
  rewrite (proj2 (proj2 (maturity_factor_capped 40 mango) eq_refl)).
  reflexivity.
Defined.

Lemma is_nan_Math_max_one (x : float) :
  PrimFloat.is_nan (Math_max x 1) = PrimFloat.is_nan x.
Proof.
  unfold Math_max. destruct (PrimFloat.is_nan x) eqn:Hnan; [reflexivity|].
  change (PrimFloat.is_nan 1) with false. cbn [orb].
  destruct (x <? 1)%float; [reflexivity|].
  destruct (1 <? x)%float; [exact Hnan|].
  change (PrimFloat.get_sign 1) with false. reflexivity.
Qed.

(** X11. After any update of the grid size the stored size is [NaN]
    exactly when the size computed from the land is [NaN], and otherwise
    it is at least 1. *)
Theorem gridSize_nan_or_at_least_one (st : planner) :
  PrimFloat.is_nan (gridSize (updateGridSize st)) = PrimFloat.is_nan (newGridSize st)
  /\ (PrimFloat.is_nan (newGridSize st) = false ->
      (1 <=? gridSize (updateGridSize st))%float = true).
Proof.
  rewrite gridSize_updateGridSize. split; [apply is_nan_Math_max_one|].
  intros Hnan. destruct (Math_max_one (newGridSize st)) as [E|E]; [|exact E].
  rewrite <- is_nan_Math_max_one, E in Hnan. discriminate Hnan.
Qed.

Lemma gridSize_nan_or_at_least_one_witness :
  PrimFloat.is_nan (newGridSize (setPropertySize 0 initialPlanner)) = false
  /\ (1 <=? gridSize (updateGridSize (setPropertySize 0 initialPlanner)))%float = true.
Proof.
  split; [reflexivity|].
  apply (proj2 (gridSize_nan_or_at_least_one (setPropertySize 0 initialPlanner))).
  reflexivity.
Defined.

(** ** The entries of the income object *)

Lemma NoDup_keys_put {V : Type} (o : JsObject.t V) (k : string) (v : V) :
  NoDup (List.map fst o) -> NoDup (List.map fst (JsObject.put o k v)).
Proof.
  intros Ho. rewrite keys_put.
  destruct (JsObject.get o k) eqn:E; [exact Ho|].
  apply NoDup_app. split; [exact Ho|]. split; [|apply NoDup_singleton].
  intros k' Hk Hk'. apply list_elem_of_In in Hk, Hk'.
  destruct Hk' as [<-|[]]. apply get_None_keys in E. contradiction.
Qed.

Lemma runningTotal_Some (a : float) (amounts : list float) :
  runningTotal (Some a) amounts <> None.
Proof.
  revert a. induction amounts as [|x rest IH]; intros a; [discriminate|].
  apply IH.
Qed.

Lemma runningTotal_None (amounts : list float) :
  runningTotal None amounts = None <-> amounts = [].
Proof.
  destruct amounts as [|x rest]; [tauto|].
  split; [|discriminate]. intros H. now apply runningTotal_Some in H.
Qed.

Lemma creditedTo_nil (plantDatabase placed : list plant) (forestAge : float) (n : string) :
  creditedTo plantDatabase placed forestAge n = []
  <-> forall p d, In p placed -> findInDatabase plantDatabase p = Some d -> name d <> n.
Proof.
  unfold creditedTo. induction placed as [|q placed IH]; simpl.
  - split; [intros _ p d []|reflexivity].
  - split.
    + intros H p d [<-|Hp] Hd.
      * rewrite Hd in H. destruct (String.eqb_spec (name d) n); [discriminate H|assumption].
      * apply app_eq_nil in H as [_ H]. now apply (proj1 IH H p d).
    + intros H.
      rewrite (proj2 IH (fun p d Hp => H p d (or_intror Hp))), app_nil_r.
      destruct (findInDatabase plantDatabase q) as [d|] eqn:Hd; [|reflexivity].
      destruct (String.eqb_spec (name d) n) as [E|_]; [|reflexivity].
      now destruct (H q d (or_introl eq_refl) Hd).
Qed.

Lemma income_keys_NoDup (plantDatabase placed : list plant) (forestAge : float)
    (o : JsObject.t amount) :
  NoDup (List.map fst o) ->
  NoDup (List.map fst (fold_left (addIncome plantDatabase forestAge) placed o)).
Proof.
  revert o. induction placed as [|p placed IH]; intros o Ho; simpl; [exact Ho|].
  apply IH. unfold addIncome.
  destruct (findInDatabase plantDatabase p) as [d|]; [|exact Ho].
  destruct (String.eqb (name d) "__proto__"); [exact Ho | now apply NoDup_keys_put].
Qed.

Lemma income_has_entry (plantDatabase placed : list plant) (forestAge : float)
    (o : JsObject.t amount) (n : string) :
  JsObject.get (fold_left (addIncome plantDatabase forestAge) placed o) n <> None
  <-> JsObject.get o n <> None
      \/ (n <> "__proto__"
          /\ exists p d, In p placed
                         /\ findInDatabase plantDatabase p = Some d /\ name d = n).
Proof.
  revert o. induction placed as [|p placed IH]; intros o; cbn [fold_left].
  - split; [tauto|]. intros [H|(_ & p & d & [] & _)]. exact H.
  - rewrite IH. unfold addIncome.
    destruct (findInDatabase plantDatabase p) as [d|] eqn:Hd.
    + destruct (String.eqb_spec (name d) "__proto__") as [Ep|Hp].
      * split.
        -- intros [H|(Hn & q & e & Hq & He & En)]; [tauto|].
           right. split; [exact Hn|]. exists q, e. cbn [In]. tauto.
        -- intros [H|(Hn & q & e & [<-|Hq] & He & En)]; [tauto| |].
           ++ rewrite Hd in He. inversion He; subst e. congruence.
           ++ right. split; [exact Hn|]. now exists q, e.
      * destruct (String.eqb_spec (name d) n) as [En|Hne].
        -- subst n. rewrite get_put_eq. split; intros _.
           ++ right. split; [exact Hp|]. exists p, d. cbn [In]. tauto.
           ++ left. discriminate.
        -- rewrite get_put_ne by exact Hne. split.
           ++ intros [H|(Hn & q & e & Hq & He & En)]; [tauto|].
              right. split; [exact Hn|]. exists q, e. cbn [In]. tauto.
           ++ intros [H|(Hn & q & e & [<-|Hq] & He & En)]; [tauto| |].
              ** rewrite Hd in He. inversion He; subst e. contradiction.
              ** right. split; [exact Hn|]. now exists q, e.
    + split.
      * intros [H|(Hn & q & e & Hq & He & En)]; [tauto|].
        right. split; [exact Hn|]. exists q, e. cbn [In]. tauto.
      * intros [H|(Hn & q & e & [<-|Hq] & He & En)]; [tauto| |].
        -- rewrite Hd in He. discriminate He.
        -- right. split; [exact Hn|]. now exists q, e.
Qed.

(** X12. The income object has one entry per species name.  It has an
    entry for a name exactly when the name is not [__proto__] and some
    placed plant's id is found in the catalog under a record of that name;
    with no placed plant found in the catalog (an empty grid, say) the
    object is empty. *)
Theorem income_entries (plantDatabase : list plant) (g : GridState)
    (forestAge : float) (n : string) :
  NoDup (List.map fst (calculateIncome plantDatabase g forestAge))
  /\ (JsObject.get (calculateIncome plantDatabase g forestAge) n <> None
      <-> n <> "__proto__"
          /\ exists p d, In p (allPlants g)
                         /\ findInDatabase plantDatabase p = Some d /\ name d = n)
  /\ ((forall p, In p (allPlants g) -> findInDatabase plantDatabase p = None) ->
      calculateIncome plantDatabase g forestAge = []).
Proof.
  unfold calculateIncome. split; [|split].
  - apply income_keys_NoDup. constructor.
  - rewrite income_has_entry. cbn [JsObject.get]. tauto.
  - intros Hnone. induction (allPlants g) as [|p placed IH]; [reflexivity|].
    simpl. unfold addIncome at 2. rewrite (Hnone p (or_introl eq_refl)).
    apply IH. intros q Hq. apply Hnone. now right.
Qed.

Lemma income_entries_witness :
  calculateIncome [] sampleGrid 5 = []
  /\ calculateIncome smallDatabase [] 5 = [].
Proof.
  split.
  - apply (proj2 (proj2 (income_entries [] sampleGrid 5 ""))). reflexivity.
  - apply (proj2 (proj2 (income_entries smallDatabase [] 5 ""))). intros p [].
Defined.

(** A species named [__proto__] gets no entry, one named [constructor] gets
    an entry that is not a number. *)
Example income_of_inherited_names :
  calculateIncome [specimen 31 "__proto__" "Vine"]
    (placeAll [(0, 0, specimen 31 "__proto__" "Vine")]%Z) 5 = []
  /\ calculateIncome [specimen 32 "constructor" "Vine"]
       (placeAll [(0, 0, specimen 32 "constructor" "Vine")]%Z) 5
     = [("constructor", Text)].
Proof. split; reflexivity. Qed.

(** ** Vertical structure score *)

Lemma fold_layerPoints (counts : list nat) (score : nat) :
  fold_left (fun score count => score + Nat.min count 5 * 10) counts score
  = score + list_sum (List.map layerPoints counts).
Proof.
  revert score. induction counts as [|c counts IH]; intros score; simpl; [lia|].
  rewrite IH. unfold layerPoints. lia.
Qed.

Lemma counted_countLayer (count : JsObject.t nat) (p : plant) (l : string) :
  default 0 (JsObject.get (countLayer count p) l)
  = default 0 (JsObject.get count l) + (if String.eqb (layer p) l then 1 else 0).
Proof.
  unfold countLayer.
  destruct (String.eqb_spec (layer p) l) as [<-|Hne].
  - rewrite get_put_eq. simpl.
    destruct (JsObject.get count (layer p)) as [c|]; simpl; [|reflexivity].
    now destruct (Nat.eqb_spec c 0) as [->|_].
  - rewrite get_put_ne by exact Hne. lia.
Qed.

Lemma counted_fold (plants : list plant) (count : JsObject.t nat) (l : string) :
  default 0 (JsObject.get (fold_left countLayer plants count) l)
  = default 0 (JsObject.get count l) + layerCount l plants.
Proof.
  revert count. induction plants as [|p plants IH]; intros count; simpl.
  - unfold layerCount. simpl. lia.
  - rewrite IH, counted_countLayer. unfold layerCount. simpl.
    destruct (String.eqb (layer p) l); simpl; lia.
Qed.

Lemma keys_fold_countLayer (plants : list plant) (count : JsObject.t nat) (k : string) :
  In k (List.map fst (fold_left countLayer plants count)) ->
  In k (List.map fst count) \/ In k (List.map layer plants).
Proof.
  revert count. induction plants as [|p plants IH]; intros count; simpl; [tauto|].
  intros Hk. apply IH in Hk as [Hk|Hk]; [|tauto].
  unfold countLayer in Hk. rewrite keys_put in Hk.
  destruct (JsObject.get count (layer p)); [tauto|].
  apply in_app_iff in Hk as [Hk|[<-|[]]]; tauto.
Qed.

Lemma NoDup_keys_fold_countLayer (plants : list plant) (count : JsObject.t nat) :
  NoDup (List.map fst count) ->
  NoDup (List.map fst (fold_left countLayer plants count)).
Proof.
  revert count. induction plants as [|p plants IH]; intros count Hc; simpl; [exact Hc|].
  apply IH. unfold countLayer. now apply NoDup_keys_put.
Qed.

Lemma list_sum_without (L : list string) (k : string) (a : nat) (h : string -> nat) :
  ~ In k L ->
  list_sum (List.map (fun l => if String.eqb k l then a else h l) L)
  = list_sum (List.map h L).
Proof.
  induction L as [|l L IH]; simpl; intros Hk; [reflexivity|].
  destruct (String.eqb_spec k l) as [->|_]; [tauto|].
  rewrite IH; tauto.
Qed.

Lemma list_sum_update (L : list string) (k : string) (a : nat) (h : string -> nat) :
  NoDup L -> In k L ->
  list_sum (List.map (fun l => if String.eqb k l then a else h l) L) + h k
  = a + list_sum (List.map h L).
Proof.
  induction L as [|l L IH]; simpl; intros Hnd Hk; [destruct Hk|].
  apply NoDup_cons in Hnd as [Hl HL].
  destruct (String.eqb_spec k l) as [->|Hne].
  - rewrite list_sum_without; [lia|].
    intros Hin. apply Hl. now apply list_elem_of_In.
  - destruct Hk as [->|Hk]; [contradiction|]. specialize (IH HL Hk). lia.
Qed.

Lemma list_sum_const (L : list string) (c : nat) :
  list_sum (List.map (fun _ => c) L) = c * length L.
Proof. induction L as [|l L IH]; simpl; lia. Qed.

(** The sum over the stored counts is the sum over any duplicate-free list
    of names that covers the keys. *)
Lemma list_sum_values (count : JsObject.t nat) (L : list string) (f : nat -> nat) :
  f 0 = 0 ->
  NoDup (List.map fst count) -> NoDup L ->
  (forall k, In k (List.map fst count) -> In k L) ->
  list_sum (List.map f (JsObject.values count))
  = list_sum (List.map (fun l => f (default 0 (JsObject.get count l))) L).
Proof.
  intros Hf. unfold JsObject.values.
  induction count as [|[k c] rest IH]; simpl; intros Hnd HL Hsub.
  - rewrite (map_ext _ (fun _ => 0)) by (intros l; exact Hf).
    rewrite list_sum_const. lia.
  - apply NoDup_cons in Hnd as [Hk Hrest].
    rewrite IH; [|exact Hrest|exact HL|intros k' Hk'; apply Hsub; now right].
    pose proof (list_sum_update L k (f c)
                  (fun l => f (default 0 (JsObject.get rest l))) HL
                  (Hsub k (or_introl eq_refl))) as Hupd.
    cbn beta in Hupd.
    assert (Habs : JsObject.get rest k = None).
    { apply get_None_keys. intros Hin. apply Hk. now apply list_elem_of_In. }
    rewrite Habs in Hupd. simpl in Hupd. rewrite Hf in Hupd.
    rewrite <- Hupd, Nat.add_0_r. f_equal. apply map_ext. intros l.
    now destruct (String.eqb k l).
Qed.

(** The score as a sum over a duplicate-free list of layer names that
    covers the layers of the plants. *)
Lemma verticalScore_over (plants : list plant) (L : list string) :
  NoDup L -> (forall p, In p plants -> In (layer p) L) ->
  verticalScore plants
  = list_sum (List.map (fun l => layerPoints (layerCount l plants)) L).
Proof.
  intros HL Hcover. unfold verticalScore. rewrite fold_layerPoints. simpl.
  rewrite (list_sum_values (layerCounts plants) L layerPoints eq_refl).
  - apply f_equal, map_ext. intros l. unfold layerCounts.
    now rewrite counted_fold.
  - apply NoDup_keys_fold_countLayer. constructor.
  - exact HL.
  - intros k Hk. apply keys_fold_countLayer in Hk as [[]|Hk].
    apply in_map_iff in Hk as (p & <- & Hp). now apply Hcover.
Qed.

Lemma In_layersUsed (plants : list plant) (p : plant) :
  In p plants -> In (layer p) (layersUsed plants).
Proof.
  intros Hp. apply list_elem_of_In, elem_of_remove_dups, list_elem_of_In.
  now apply in_map.
Qed.

Lemma list_sum_le (L : list string) (g h : string -> nat) :
  (forall l, g l <= h l) ->
  list_sum (List.map g L) <= list_sum (List.map h L).
Proof.
  intros H. induction L as [|l L IH]; simpl; [lia|]. specialize (H l). lia.
Qed.

Lemma list_sum_layerCount (plants : list plant) (L : list string) :
  NoDup L -> list_sum (List.map (fun l => layerCount l plants) L) <= length plants.
Proof.
  intros HL. induction plants as [|p plants IH]; simpl.
  - rewrite (map_ext _ (fun _ => 0)) by reflexivity.
    rewrite (list_sum_const L 0). lia.
  - unfold layerCount in *. cbn [List.filter].
    assert (Hstep : list_sum (List.map
                      (fun l => length (if String.eqb (layer p) l
                                        then p :: List.filter (fun q => String.eqb (layer q) l) plants
                                        else List.filter (fun q => String.eqb (layer q) l) plants)) L)
                    <= 1 + list_sum (List.map
                         (fun l => length (List.filter (fun q => String.eqb (layer q) l) plants)) L)).
    { clear IH. induction L as [|l L IHL]; simpl; [lia|].
      apply NoDup_cons in HL as [Hl HL].
      destruct (String.eqb_spec (layer p) l) as [E|_]; simpl.
      - rewrite (map_ext_in _ (fun l => length (List.filter (fun q => String.eqb (layer q) l) plants))).
        + lia.
        + intros l' Hl'. destruct (String.eqb_spec (layer p) l') as [E'|_]; [|reflexivity].
          exfalso. apply Hl. apply list_elem_of_In. congruence.
      - specialize (IHL HL). lia. }
    lia.
Qed.

(** X13. The vertical score is the sum, over the layers in use, of ten
    points per plant of the layer up to five plants.  It is at most ten
    times the number of plants and at most fifty times the number of layers
    in use, hence at most 350 when the species have the seven layers. *)
Theorem verticalScore_by_layer (plants : list plant) :
  verticalScore plants
  = list_sum (List.map (fun l => Nat.min (layerCount l plants) 5 * 10)
                (layersUsed plants))
  /\ verticalScore plants <= 10 * length plants
  /\ verticalScore plants <= 50 * distinct (List.map layer plants)
  /\ ((forall p, In p plants -> In (layer p) layers) -> verticalScore plants <= 350).
Proof.
  assert (Hused : NoDup (layersUsed plants)) by apply NoDup_remove_dups.
  pose proof (verticalScore_over plants (layersUsed plants) Hused
                (In_layersUsed plants)) as Hsum.
  split; [exact Hsum|]. split; [|split].
  - rewrite Hsum.
    etransitivity; [apply (list_sum_le _ _ (fun l => 10 * layerCount l plants))|].
    + intros l. cbv beta. unfold layerPoints. lia.
    + pose proof (list_sum_layerCount plants (layersUsed plants) Hused) as Hle.
      clear Hsum.
      assert (E : forall L, list_sum (List.map (fun l => 10 * layerCount l plants) L)
                            = 10 * list_sum (List.map (fun l => layerCount l plants) L)).
      { induction L as [|l L IH]; [reflexivity|].
        unfold list_sum in *. cbn [List.map fold_right]. lia. }
      rewrite E. lia.
  - rewrite Hsum, distinct_remove_dups.
    etransitivity; [apply (list_sum_le _ _ (fun _ => 50))|].
    + intros l. cbv beta. unfold layerPoints. lia.
    + rewrite list_sum_const. unfold layersUsed. lia.
  - intros Hl.
    assert (HL : NoDup layers).
    { unfold layers. repeat (apply NoDup_cons; split;
        [intros Hin; apply list_elem_of_In in Hin; cbn in Hin;
         repeat (destruct Hin as [Hin|Hin]; [discriminate Hin|]); exact Hin|]).
      constructor. }
    rewrite (verticalScore_over plants layers HL Hl).
    etransitivity; [apply (list_sum_le _ _ (fun _ => 50))|].
    + intros l. cbv beta. unfold layerPoints. lia.
    + rewrite list_sum_const. simpl. lia.
Qed.

Lemma verticalScore_by_layer_witness :
  verticalScore (allPlants sampleGrid) = 40
  /\ verticalScore (allPlants sampleGrid) <= 350.
Proof.
  split; [reflexivity|].
  apply (proj2 (proj2 (proj2 (verticalScore_by_layer (allPlants sampleGrid))))).
  intros p Hp. cbv in Hp.
  destruct Hp as [<-|[<-|[<-|[<-|[]]]]]; cbv; tauto.
Defined.

Lemma layerCount_app (l : string) (xs ys : list plant) :
  layerCount l (xs ++ ys) = layerCount l xs + layerCount l ys.
Proof. unfold layerCount. now rewrite List.filter_app, length_app. Qed.

Lemma layerCount_allPlants_put_snoc (g : GridState) (key : string) (p : plant) (l : string) :
  layerCount l (allPlants (JsObject.put g key (plantsAt g key ++ [p])))
  = layerCount l (allPlants g) + (if String.eqb (layer p) l then 1 else 0).
Proof.
  unfold allPlants, plantsAt, layerCount.
  induction g as [|[k cell] rest IH]; simpl.
  - now destruct (String.eqb (layer p) l).
  - destruct (String.eqb k key); simpl; rewrite !List.filter_app, !length_app.
    + simpl. destruct (String.eqb (layer p) l); simpl; lia.
    + rewrite IH. lia.
Qed.

(** X14. Placing a plant never lowers the vertical score and raises it by
    at most 10; once the grid holds five plants of a layer, a further plant
    of that layer leaves the score as it is. *)
Theorem verticalScore_place (g : GridState) (x y : Z) (p : plant) :
  verticalScore (allPlants g) <= verticalScore (allPlants (place (cellKey x y) p g))
  /\ verticalScore (allPlants (place (cellKey x y) p g)) <= verticalScore (allPlants g) + 10
  /\ (5 <= layerCount (layer p) (allPlants g) ->
      verticalScore (allPlants (place (cellKey x y) p g)) = verticalScore (allPlants g)).
Proof.
  unfold place. destruct (belowCapacity _ _); [|repeat split; lia].
  set (g' := JsObject.put g (cellKey x y) (plantsAt g (cellKey x y) ++ [p])).
  set (L := remove_dups (layer p :: List.map layer (allPlants g))).
  assert (HL : NoDup L) by apply NoDup_remove_dups.
  assert (Hin : forall l, In l (layer p :: List.map layer (allPlants g)) -> In l L).
  { intros l Hl. now apply list_elem_of_In, elem_of_remove_dups, list_elem_of_In. }
  rewrite (verticalScore_over (allPlants g) L HL)
    by (intros q Hq; apply Hin; right; now apply in_map).
  rewrite (verticalScore_over (allPlants g') L HL).
  2:{ intros q Hq. apply allPlants_put_snoc in Hq as [->|Hq]; apply Hin;
      [now left | right; now apply in_map]. }
  pose proof (list_sum_update L (layer p)
                (layerPoints (layerCount (layer p) (allPlants g) + 1))
                (fun l => layerPoints (layerCount l (allPlants g))) HL
                (Hin _ (or_introl eq_refl))) as Hupd.
  cbv beta in Hupd.
  rewrite (map_ext (fun l => layerPoints (layerCount l (allPlants g')))
             (fun l => if String.eqb (layer p) l
                       then layerPoints (layerCount (layer p) (allPlants g) + 1)
                       else layerPoints (layerCount l (allPlants g)))).
  2:{ intros l. unfold g'. rewrite layerCount_allPlants_put_snoc.
      destruct (String.eqb_spec (layer p) l) as [<-|_]; [reflexivity|].
      now rewrite Nat.add_0_r. }
  unfold layerPoints in *. repeat split; try intros Hfive; lia.
Qed.

Lemma verticalScore_place_witness :
  5 <= layerCount (layer comfrey)
         (allPlants (placeAll [(0, 0, comfrey); (0, 0, comfrey); (0, 0, comfrey);
                               (1, 0, comfrey); (1, 0, comfrey)]%Z))
  /\ verticalScore
       (allPlants (place (cellKey 1 0) comfrey
                     (placeAll [(0, 0, comfrey); (0, 0, comfrey); (0, 0, comfrey);
                                (1, 0, comfrey); (1, 0, comfrey)]%Z)))
     = 50.
Proof.
  split.
  - vm_compute. lia.
  - rewrite (proj2 (proj2 (verticalScore_place
               (placeAll [(0, 0, comfrey); (0, 0, comfrey); (0, 0, comfrey);
                          (1, 0, comfrey); (1, 0, comfrey)]%Z) 1 0 comfrey))).
    + reflexivity.
    + vm_compute. lia.
Defined.

(** ** More on biodiversity *)

(** X15. The biodiversity score does not change when a plant is placed
    whose name and whose layer are both on the grid already (a second
    plant of a species, in particular); and it is at most ten times the
    number of plants plus the bonus of 50. *)
Theorem biodiversity_repeat_adds_nothing (g : GridState) (x y : Z) (p : plant) :
  (In (name p) (List.map name (allPlants g)) ->
   In (layer p) (List.map layer (allPlants g)) ->
   biodiversityScore (allPlants (place (cellKey x y) p g))
   = biodiversityScore (allPlants g))
  /\ biodiversityScore (allPlants g) <= 10 * length (allPlants g) + 50.
Proof.
  split.
  - intros Hname Hlayer. unfold place.
    destruct (belowCapacity _ _); [|reflexivity].
    rewrite !biodiversityScore_unfold.
    assert (Hf : forall f : plant -> string,
               In (f p) (List.map f (allPlants g)) ->
               distinct (List.map f (allPlants (JsObject.put g (cellKey x y)
                                      (plantsAt g (cellKey x y) ++ [p]))))
               = distinct (List.map f (allPlants g))).
    { intros f Hfp. apply distinct_same. intros s. rewrite !in_map_iff. split.
      - intros (q & <- & Hq). apply allPlants_put_snoc in Hq as [->|Hq].
        + now apply in_map_iff in Hfp.
        + now exists q.
      - intros (q & <- & Hq). exists q. split; [reflexivity|].
        apply allPlants_put_snoc. now right. }
    now rewrite (Hf name Hname), (Hf layer Hlayer).
  - rewrite biodiversityScore_unfold, distinct_remove_dups.
    assert (Hlen : length (remove_dups (List.map name (allPlants g)))
                   <= length (allPlants g)).
    { rewrite <- (length_map name (allPlants g)).
      generalize (List.map name (allPlants g)). intros names.
      induction names as [|n names IH]; simpl; [lia|].
      destruct (decide_rel elem_of n names); simpl; lia. }
    destruct (Nat.eqb _ 7); lia.
Qed.

Lemma biodiversity_repeat_adds_nothing_witness :
  biodiversityScore (allPlants (place (cellKey 3 3) mango sampleGrid))
  = biodiversityScore (allPlants sampleGrid).
Proof.
  apply (proj1 (biodiversity_repeat_adds_nothing sampleGrid 3 3 mango)).
  - cbv. tauto.
  - cbv. tauto.
Defined.

(** ** Export of the coordinates *)

Lemma append_cons (ch : ascii) (a b : string) :
  String ch a +:+ b = String ch (a +:+ b).
Proof. reflexivity. Qed.

Lemma append_assoc (a b c : string) : (a +:+ b) +:+ c = a +:+ (b +:+ c).
Proof.
  induction a as [|ch a IH]; [reflexivity|].
  rewrite !append_cons. now rewrite IH.
Qed.

Lemma append_empty_r (a : string) : a +:+ "" = a.
Proof.
  induction a as [|ch a IH]; [reflexivity|].
  rewrite append_cons. now rewrite IH.
Qed.

Lemma splitComma_comma_free (s : string) :
  comma_free s = true -> splitComma s = [s].
Proof.
  induction s as [|c s IH]; simpl; [reflexivity|].
  destruct (Ascii.eqb c ","); simpl; [discriminate|].
  intros Hs. now rewrite IH.
Qed.

Lemma splitComma_append (a b : string) :
  comma_free a = true -> splitComma (a +:+ "," +:+ b) = a :: splitComma b.
Proof.
  induction a as [|c a IH]; [reflexivity|].
  rewrite append_cons. cbn [comma_free splitComma].
  destruct (Ascii.eqb c ","); simpl; [discriminate|].
  intros Ha. now rewrite IH.
Qed.

Lemma comma_free_append (a b : string) :
  comma_free (a +:+ b) = comma_free a && comma_free b.
Proof.
  induction a as [|c a IH]; [reflexivity|].
  rewrite append_cons. cbn [comma_free]. rewrite IH. now rewrite andb_assoc.
Qed.

Lemma splitComma_cellKey (x y : Z) : splitComma (cellKey x y) = [pretty x; pretty y].
Proof.
  unfold cellKey. rewrite splitComma_append by apply pretty_Z_comma_free.
  now rewrite splitComma_comma_free by apply pretty_Z_comma_free.
Qed.

Lemma csvRow_cellKey (x y : Z) (p : plant) :
  csvRow (cellKey x y) p
  = cellKey x y +:+ "," +:+ name p +:+ "," +:+ layer p +:+ newline.
Proof.
  unfold csvRow. rewrite splitComma_cellKey. unfold part, cellKey. simpl nth.
  now rewrite !append_assoc.
Qed.

(** X16. A cell key splits at its comma into the two coordinates it was
    made of.  The row exported for a plant is [x,y,name,layer] and a line
    feed, and when neither the name nor the layer contains a comma the row
    splits back into exactly these four fields. *)
Theorem csv_row_round_trip (x y : Z) (p : plant) :
  splitComma (cellKey x y) = [pretty x; pretty y]
  /\ csvRow (cellKey x y) p
     = pretty x +:+ "," +:+ pretty y +:+ "," +:+ name p +:+ "," +:+ layer p +:+ newline
  /\ (comma_free (name p) = true -> comma_free (layer p) = true ->
      splitComma (csvRow (cellKey x y) p)
      = [pretty x; pretty y; name p; layer p +:+ newline]).
Proof.
  split; [apply splitComma_cellKey|].
  assert (Hrow : csvRow (cellKey x y) p
                 = pretty x +:+ "," +:+ pretty y +:+ "," +:+ name p +:+ ","
                   +:+ layer p +:+ newline).
  { unfold csvRow. now rewrite splitComma_cellKey. }
  split; [exact Hrow|].
  intros Hname Hlayer. rewrite Hrow.
  rewrite splitComma_append by apply pretty_Z_comma_free.
  rewrite splitComma_append by apply pretty_Z_comma_free.
  rewrite splitComma_append by exact Hname.
  rewrite splitComma_comma_free; [reflexivity|].
  rewrite comma_free_append, Hlayer. reflexivity.
Qed.

Lemma csv_row_round_trip_witness :
  splitComma (csvRow (cellKey 2 0) banana)
  = ["2"; "0"; "Banana"; "Sub-canopy" +:+ newline].
Proof.
  apply (proj2 (proj2 (csv_row_round_trip 2 0 banana))); reflexivity.
Defined.

(** A name with a comma gives a row of five fields. *)
Remark csv_row_with_comma :
  length (splitComma (csvRow (cellKey 0 0) (specimen 20 "Kale, curly" "Herbaceous"))) = 5.
Proof. reflexivity. Qed.

Lemma fold_rows (key : string) (plants : list plant) (csv : string) :
  fold_left (fun csvContent plant => csvContent +:+ csvRow key plant) plants csv
  = csv +:+ joinAll (List.map (csvRow key) plants).
Proof.
  revert csv. induction plants as [|p plants IH]; intros csv; simpl.
  - now rewrite append_empty_r.
  - now rewrite IH, append_assoc.
Qed.

Lemma joinAll_app (xs ys : list string) :
  joinAll (xs ++ ys) = joinAll xs +:+ joinAll ys.
Proof.
  induction xs as [|x xs IH]; simpl; [reflexivity|].
  now rewrite IH, append_assoc.
Qed.

Lemma fold_entries (g : GridState) (csv : string) :
  fold_left
    (fun csvContent entry =>
       fold_left (fun csvContent plant => csvContent +:+ csvRow (fst entry) plant)
         (snd entry) csvContent)
    g csv
  = csv +:+ joinAll (List.map (fun kp => csvRow (fst kp) (snd kp)) (placements g)).
Proof.
  revert csv. induction g as [|[key cell] rest IH]; intros csv; simpl.
  - now rewrite append_empty_r.
  - rewrite IH, fold_rows, List.map_app, joinAll_app, List.map_map, append_assoc.
    reflexivity.
Qed.

Lemma placements_snd (g : GridState) : List.map snd (placements g) = allPlants g.
Proof.
  unfold placements, allPlants, JsObject.values.
  induction g as [|[key cell] rest IH]; simpl; [reflexivity|].
  rewrite List.map_app, IH, List.map_map. simpl. now rewrite List.map_id.
Qed.

Lemma placements_cellKeys (g : GridState) :
  cellKeys g -> Forall (fun kp => exists x y, fst kp = cellKey x y) (placements g).
Proof.
  unfold cellKeys, placements.
  induction g as [|[key cell] rest IH]; simpl; intros Hg; [constructor|].
  apply Forall_cons in Hg as [Hkey Hrest].
  apply Forall_app. split; [|now apply IH].
  apply Forall_forall. intros kp Hkp.
  apply list_elem_of_In, in_map_iff in Hkp as (p & <- & _). exact Hkey.
Qed.

(** X17. On a grid reached by placements, erasures and resets, the exported
    text is the header followed by one row per plant on the grid, cell by
    cell in the order of the grid and in planting order within a cell; each
    row is the key of the cell, the name and the layer, separated by commas
    and closed by a line feed. *)
Theorem csv_one_row_per_plant (acts : list action) :
  csvContent (runActions acts)
  = csvHeader
    +:+ joinAll (List.map
                   (fun kp => fst kp +:+ "," +:+ name (snd kp) +:+ ","
                              +:+ layer (snd kp) +:+ newline)
                   (placements (runActions acts)))
  /\ List.map snd (placements (runActions acts)) = allPlants (runActions acts).
Proof.
  split; [|apply placements_snd].
  unfold csvContent. rewrite fold_entries. f_equal. f_equal.
  destruct (runActions_keeps acts []) as (_ & _ & _ & Hk).
  { repeat split; try constructor. apply capped_empty. }
  apply placements_cellKeys in Hk. unfold runActions.
  induction Hk as [|kp kps (x & y & Hkey) _ IH]; simpl; [reflexivity|].
  rewrite IH. f_equal. rewrite Hkey. apply csvRow_cellKey.
Qed.

(** ** Edits of the cost tables *)

(** X18. Editing the cost stored under an existing name changes that entry
    and nothing else: the names, their order and the other amounts stay as
    they were, and the name then reads the new amount. *)
Theorem cost_edit_changes_one_entry (prev : JsObject.t float) (key : string)
    (value : float) :
  JsObject.get (handleCostChange key value prev) key = Some value
  /\ (forall key', key <> key' ->
        JsObject.get (handleCostChange key value prev) key' = JsObject.get prev key')
  /\ (JsObject.get prev key <> None ->
      List.map fst (handleCostChange key value prev) = List.map fst prev)
  /\ (JsObject.get prev key = None ->
      handleCostChange key value prev = prev ++ [(key, value)]).
Proof.
  unfold handleCostChange. repeat split.
  - apply get_put_eq.
  - intros key' Hne. now apply get_put_ne.
  - intros Hsome. rewrite keys_put.
    destruct (JsObject.get prev key); [reflexivity | contradiction].
  - intros Hnone. induction prev as [|[k v] rest IH]; simpl in *; [reflexivity|].
    destruct (String.eqb k key); [discriminate|]. now rewrite IH.
Qed.

Lemma cost_edit_changes_one_entry_witness :
  List.map fst (handleCostChange "water" 750 defaultAnnualCosts)
  = List.map fst defaultAnnualCosts
  /\ handleCostChange "fencing" 300 defaultAnnualCosts
     = defaultAnnualCosts ++ [("fencing", 300%float)].
Proof.
  split.
  - apply (proj1 (proj2 (proj2 (cost_edit_changes_one_entry defaultAnnualCosts
                                  "water" 750)))).
    discriminate.
  - apply (proj2 (proj2 (proj2 (cost_edit_changes_one_entry defaultAnnualCosts
                                  "fencing" 300)))).
    reflexivity.
Defined.

(** ** Order of the cells *)

(** X19. The cells are enumerated in the order in which they were first
    planted: an accepted placement into an occupied cell leaves the order
    of the keys as it is, one into a cell that is not stored puts the key
    last, and an erasure takes its key out and keeps the others in order. *)
Theorem cell_order_kept (g : GridState) (x y : Z) (p : plant) :
  (belowCapacity (layerCount (layer p) (plantsAt g (cellKey x y)))
     (capacityFor (layer p)) = true ->
   List.map fst (place (cellKey x y) p g)
   = match JsObject.get g (cellKey x y) with
     | Some _ => List.map fst g
     | None => List.map fst g ++ [cellKey x y]
     end)
  /\ List.map fst (erase (cellKey x y) g)
     = List.filter (fun key => negb (String.eqb key (cellKey x y))) (List.map fst g).
Proof.
  split.
  - intros Hb. unfold place. rewrite Hb. apply keys_put.
  - apply keys_omit.
Qed.

Lemma cell_order_kept_witness :
  List.map fst (place (cellKey 0 0) lemongrass
                  (placeAll [(0, 0, mango); (1, 0, banana)]%Z))
  = ["0,0"; "1,0"]
  /\ List.map fst (place (cellKey 0 1) lemongrass
                     (placeAll [(0, 0, mango); (1, 0, banana)]%Z))
     = ["0,0"; "1,0"; "0,1"].
Proof.
  split.
  - rewrite (proj1 (cell_order_kept (placeAll [(0, 0, mango); (1, 0, banana)]%Z)
                      0 0 lemongrass) eq_refl).
    reflexivity.
  - rewrite (proj1 (cell_order_kept (placeAll [(0, 0, mango); (1, 0, banana)]%Z)
                      0 1 lemongrass) eq_refl).
    reflexivity.
Defined.

(** ** Scores after an erasure *)

Lemma layerCount_allPlants_omit (g : GridState) (key : string) (l : string) :
  layerCount l (allPlants (JsObject.omit g key)) <= layerCount l (allPlants g).
Proof.
  unfold allPlants, layerCount.
  induction g as [|[k cell] rest IH]; simpl; [lia|].
  destruct (String.eqb k key); simpl; rewrite ?List.filter_app, ?length_app; lia.
Qed.

(** X20. Erasing a cell never raises the vertical score, and when the
    species on the grid have the seven layers it never raises the
    biodiversity score either. *)
Theorem erase_never_raises_scores (g : GridState) (x y : Z) :
  verticalScore (allPlants (erase (cellKey x y) g)) <= verticalScore (allPlants g)
  /\ ((forall q, In q (allPlants g) -> In (layer q) layers) ->
      biodiversityScore (allPlants (erase (cellKey x y) g))
      <= biodiversityScore (allPlants g)).
Proof.
  unfold erase. split.
  - set (L := layersUsed (allPlants g)).
    assert (HL : NoDup L) by apply NoDup_remove_dups.
    rewrite (verticalScore_over (allPlants g) L HL (In_layersUsed _)).
    rewrite (verticalScore_over (allPlants (JsObject.omit g (cellKey x y))) L HL).
    + apply list_sum_le. intros l.
      pose proof (layerCount_allPlants_omit g (cellKey x y) l).
      unfold layerPoints. lia.
    + intros q Hq. apply In_layersUsed. now apply In_allPlants_omit in Hq.
  - intros Hlayers. rewrite !biodiversityScore_unfold.
    assert (Hn : distinct (List.map name (allPlants (JsObject.omit g (cellKey x y))))
                 <= distinct (List.map name (allPlants g))).
    { apply distinct_incl. intros s Hs. apply in_map_iff in Hs as (q & <- & Hq).
      apply in_map. now apply In_allPlants_omit in Hq. }
    assert (Hl : distinct (List.map layer (allPlants (JsObject.omit g (cellKey x y))))
                 <= distinct (List.map layer (allPlants g))).
    { apply distinct_incl. intros s Hs. apply in_map_iff in Hs as (q & <- & Hq).
      apply in_map. now apply In_allPlants_omit in Hq. }
    assert (H7 : distinct (List.map layer (allPlants g)) <= 7).
    { apply distinct_within_layers. intros s Hs.
      apply in_map_iff in Hs as (q & <- & Hq). now apply Hlayers. }
    destruct (Nat.eqb_spec (distinct (List.map layer
                (allPlants (JsObject.omit g (cellKey x y))))) 7);
      destruct (Nat.eqb_spec (distinct (List.map layer (allPlants g))) 7); lia.
Qed.

Lemma erase_never_raises_scores_witness :
  biodiversityScore (allPlants (erase (cellKey 0 0) sampleGrid))
  <= biodiversityScore (allPlants sampleGrid).
Proof.
  apply (proj2 (erase_never_raises_scores sampleGrid 0 0)).
  intros q Hq. cbv in Hq.
  destruct Hq as [<-|[<-|[<-|[<-|[]]]]]; cbv; tauto.
Defined.

(** ** The income projection against the stated formula *)









(** ** The biodiversity score with an eighth layer *)


(** The score does not fall when the grid does not use exactly seven layers
    or the new plant's layer is already in use, whatever the layers are. *)
Lemma biodiversityScore_place_unless_eighth (g : GridState) (x y : Z) (p : plant) :
  distinct (List.map layer (allPlants g)) <> 7
  \/ In (layer p) (List.map layer (allPlants g)) ->
  ~ In (name p) (List.map name (allPlants g)) ->
  biodiversityScore (allPlants g)
  <= biodiversityScore (allPlants (place (cellKey x y) p g)).
Proof.
  intros Hseven Hnew. unfold place. destruct (belowCapacity _ _); [|reflexivity].
  rewrite (biodiversityScore_same
             (allPlants (JsObject.put g (cellKey x y) (plantsAt g (cellKey x y) ++ [p])))
             (p :: allPlants g))
    by (intros q; rewrite allPlants_put_snoc; simpl; intuition).
  rewrite !biodiversityScore_unfold. cbn [List.map].
  rewrite (distinct_cons_new _ _ Hnew).
  destruct Hseven as [Hne|Hin].
  - destruct (Nat.eqb_spec (distinct (List.map layer (allPlants g))) 7); [contradiction|].
    destruct (Nat.eqb _ 7); lia.
  - rewrite (distinct_same (layer p :: List.map layer (allPlants g))
               (List.map layer (allPlants g))).
    + destruct (Nat.eqb _ 7); lia.
    + intros l. simpl. split; [intros [<-|H]; assumption | tauto].
Qed.
